(** * particles.js: a canvas particle system

    A shallow embedding of [src/particles.js] (velocities per millisecond)
    and of the physics step of its older variant [src/unnamed/part_000]
    (velocities per second), with the properties of the update, draw and
    cull pipeline stated over it.

    Modelling conventions.
    - A JavaScript Number is a real number ([R]): the arithmetic is exact.
      Rounding, NaN and the infinities are outside the model. Where a
      statement compares the two variants, whose arithmetic differs by a
      division, the lines concerned are also given over binary64 floats
      (module [Double]), and the statement says which arithmetic it is
      about.
    - The object fields mutated by the code are threaded through as an
      explicit state (a record per object); an array is a [list], read with
      [!!], written with [<[_:=_]>], and [splice(i, 1)] is [delete i].
      [spawn] pushes a new object at every turn and nothing else adds to
      [particles], so no two slots of the array hold the same object and a
      slot is modelled by the value of its particle.
    - The 2D drawing context is the log of the calls made on it.
    - [+new Date()] and [Math.random()] are inputs: the clock reading is an
      argument of [drawNextFrame], the random draws are a stream threaded
      through [spawn]. *)

From Stdlib Require Import Reals Zfloor Lra Lia ZArith List String Floats.
From stdpp Require Import base list.
From Equations Require Import Equations.
Import ListNotations.

#[local] Open Scope R_scope.

(** ** JavaScript numbers and operators *)
Module JS.

Definition ltb (a b : R) : bool := if Rlt_dec a b then true else false.
Definition leb (a b : R) : bool := if Rle_dec a b then true else false.
Definition gtb (a b : R) : bool := ltb b a.
(** [a === b] on numbers. *)
Definition strict_eqb (a b : R) : bool :=
  if Req_dec_T a b then true else false.

(** Truncation towards zero, the first step of ToInt32. *)
Definition trunc (r : R) : Z :=
  if Rle_dec 0 r then Zfloor r else (- Zfloor (- r))%Z.

(** Reduction modulo 2^32 into the signed 32-bit range. *)
Definition wrap32 (z : Z) : Z :=
  ((z + 2 ^ 31) mod 2 ^ 32 - 2 ^ 31)%Z.

Definition ToInt32 (r : R) : Z := wrap32 (trunc r).

(** [a >> k] for a literal shift count [k]. *)
Definition sar (a : R) (k : Z) : R := IZR (Z.shiftr (ToInt32 a) k).

(** [~~a]. Each [~] is ToInt32 followed by the bitwise complement. *)
Definition bitnot (a : R) : R := IZR (Z.lnot (ToInt32 a)).
Definition double_tilde (a : R) : R := bitnot (bitnot a).

(** The exponent as an integer, when it is one. *)
Definition as_integer (e : R) : option Z :=
  if Req_dec_T (IZR (Zfloor e)) e then Some (Zfloor e) else None.

(** [Math.pow(b, e)]. Where JavaScript answers NaN (a negative base with
    a fractional exponent) or Infinity (a zero base with a negative
    exponent) the real-number model has no value and 0 stands in; every
    statement below that depends on the value of a power assumes a
    positive base. *)
Definition Math_pow (b e : R) : R :=
  if Req_dec_T e 0 then 1
  else if Rlt_dec 0 b then Rpower b e
  else if Req_dec_T b 0 then 0
  else match as_integer e with
       | Some z => powerRZ b z
       | None => 0
       end.

(** [Math.random()]: the stream of draws still to come. *)
Definition Random : Type := nat -> R.
Definition Math_random (rnd : Random) : R * Random :=
  (rnd 0%nat, fun k => rnd (S k)).

End JS.

(** ** The drawing surface *)
Module Canvas.

(** A CSS colour string ['rgba(r,g,b,a)'], kept structured. *)
Inductive CssColor : Type :=
| rgba (r g b a : R).

(** The calls [particles.js] makes on a 2D context. The gradient that
    [addColorStop] and [fillStyle =] refer to is the one made by the
    latest [createRadialGradient]. *)
Inductive Call : Type :=
| set_globalCompositeOperation (mode : string)
| clearRect (x y w h : R)
| createRadialGradient (x0 y0 r0 x1 y1 r1 : R)
| addColorStop (offset : R) (c : CssColor)
| set_fillStyle
| fillRect (x y w h : R).

Definition Context : Type := list Call.

Record t : Type := mk { width : R; height : R }.

(** [canvas.getContext("2d")]: a context nothing was drawn on yet. *)
Definition getContext (c : t) : Context := [].

End Canvas.

(** ** Particle2D *)
Module Particle2D.

Record Color : Type := mkColor { RED : R; GREEN : R; BLUE : R }.

Record t : Type := mk {
  x : R;
  y : R;
  velocityX : R;
  velocityY : R;
  mass : R;
  alpha : R;
  burnRate : R;
  sharpness : R;
  color : Color
}.

Definition set_RED (c : Color) (v : R) : Color :=
  mkColor v (GREEN c) (BLUE c).
Definition set_GREEN (c : Color) (v : R) : Color :=
  mkColor (RED c) v (BLUE c).
Definition set_BLUE (c : Color) (v : R) : Color :=
  mkColor (RED c) (GREEN c) v.

(** [new Particle2D(x, y)] *)
Definition new (x0 y0 : R) : t :=
  {| x := x0; y := y0; velocityX := 0; velocityY := 0; mass := 0;
     alpha := 0; burnRate := 0; sharpness := 0;
     color := {| RED := 0; GREEN := 0; BLUE := 0 |} |}.

Definition set_x (p : t) (v : R) : t :=
  mk v (y p) (velocityX p) (velocityY p) (mass p) (alpha p) (burnRate p)
     (sharpness p) (color p).
Definition set_y (p : t) (v : R) : t :=
  mk (x p) v (velocityX p) (velocityY p) (mass p) (alpha p) (burnRate p)
     (sharpness p) (color p).
Definition set_velocityX (p : t) (v : R) : t :=
  mk (x p) (y p) v (velocityY p) (mass p) (alpha p) (burnRate p)
     (sharpness p) (color p).
Definition set_velocityY (p : t) (v : R) : t :=
  mk (x p) (y p) (velocityX p) v (mass p) (alpha p) (burnRate p)
     (sharpness p) (color p).
Definition set_mass (p : t) (v : R) : t :=
  mk (x p) (y p) (velocityX p) (velocityY p) v (alpha p) (burnRate p)
     (sharpness p) (color p).
Definition set_alpha (p : t) (v : R) : t :=
  mk (x p) (y p) (velocityX p) (velocityY p) (mass p) v (burnRate p)
     (sharpness p) (color p).
Definition set_burnRate (p : t) (v : R) : t :=
  mk (x p) (y p) (velocityX p) (velocityY p) (mass p) (alpha p) v
     (sharpness p) (color p).
Definition set_sharpness (p : t) (v : R) : t :=
  mk (x p) (y p) (velocityX p) (velocityY p) (mass p) (alpha p)
     (burnRate p) v (color p).
Definition set_color (p : t) (c : Color) : t :=
  mk (x p) (y p) (velocityX p) (velocityY p) (mass p) (alpha p)
     (burnRate p) (sharpness p) c.

Definition getColor (p : t) : Canvas.CssColor :=
  Canvas.rgba (RED (color p)) (GREEN (color p)) (BLUE (color p)) (alpha p).

Definition draw (p : t) (context : Canvas.Context) : Canvas.Context :=
  let size := mass p in
  let halfSize := JS.sar size 1 in
  let x := JS.double_tilde (x p) in
  let y := JS.double_tilde (y p) in
  let sizeSmall := halfSize * sharpness p in
  let context :=
    context ++ [Canvas.createRadialGradient (x + halfSize) (y + halfSize)
                  sizeSmall (x + halfSize) (y + halfSize) halfSize] in
  let context := context ++ [Canvas.addColorStop 0 (getColor p)] in
  let context :=
    context ++ [Canvas.addColorStop 1 (Canvas.rgba 50 0 30 0)] in
  let context := context ++ [Canvas.set_fillStyle] in
  context ++ [Canvas.fillRect x y size size].

End Particle2D.

(** ** ParticleSystem ([src/particles.js]) *)
Module ParticleSystem.

Record DirtyRegion : Type :=
  mkDirtyRegion { xMin : R; xMax : R; yMin : R; yMax : R }.

Record t : Type := mk {
  UNIVERSE_GRAVITY : R;
  UNIVERSE_FRICTION : R;
  PARTICLE_MASS_MIN : R;
  PARTICLE_MASS_MAX : R;
  PARTICLE_BURN_RATE : R;
  PARTICLE_SHARPNESS : R;
  PARTICLE_VELOCITY_X_MIN : R;
  PARTICLE_VELOCITY_X_MAX : R;
  PARTICLE_VELOCITY_Y_MIN : R;
  PARTICLE_VELOCITY_Y_MAX : R;
  SPAWN_COLOR : Particle2D.Color;
  x : R;
  y : R;
  particles : list Particle2D.t;
  autoSpawn : bool;
  canvas : Canvas.t;
  ctx : Canvas.Context;
  autoClear : bool;
  dirtyRegion : DirtyRegion;
  lastFrameTime : R
}.

(** [new ParticleSystem(canvas)] *)
Definition new (canvas0 : Canvas.t) : t :=
  {| UNIVERSE_GRAVITY := 0.0005;
     UNIVERSE_FRICTION := 0.02;
     PARTICLE_MASS_MIN := 30;
     PARTICLE_MASS_MAX := 60;
     PARTICLE_BURN_RATE := 0.97;
     PARTICLE_SHARPNESS := 0.2;
     PARTICLE_VELOCITY_X_MIN := -0.055;
     PARTICLE_VELOCITY_X_MAX := 0.055;
     PARTICLE_VELOCITY_Y_MIN := -0.18;
     PARTICLE_VELOCITY_Y_MAX := 0;
     SPAWN_COLOR := {| Particle2D.RED := 255; Particle2D.GREEN := 155;
                       Particle2D.BLUE := 0 |};
     x := JS.sar (Canvas.width canvas0) 1;
     y := Canvas.height canvas0 * 0.8;
     particles := [];
     autoSpawn := false;
     canvas := canvas0;
     ctx := Canvas.getContext canvas0
              ++ [Canvas.set_globalCompositeOperation "lighter"];
     autoClear := true;
     dirtyRegion := {| xMin := 0; xMax := 0; yMin := 0; yMax := 0 |};
     lastFrameTime := -1 |}.

(** Assignments to the fields the methods write. *)
Definition set_particles (s : t) (v : list Particle2D.t) : t :=
  mk (UNIVERSE_GRAVITY s) (UNIVERSE_FRICTION s) (PARTICLE_MASS_MIN s)
     (PARTICLE_MASS_MAX s) (PARTICLE_BURN_RATE s) (PARTICLE_SHARPNESS s)
     (PARTICLE_VELOCITY_X_MIN s) (PARTICLE_VELOCITY_X_MAX s)
     (PARTICLE_VELOCITY_Y_MIN s) (PARTICLE_VELOCITY_Y_MAX s)
     (SPAWN_COLOR s) (x s) (y s) v (autoSpawn s) (canvas s) (ctx s)
     (autoClear s) (dirtyRegion s) (lastFrameTime s).
Definition set_ctx (s : t) (v : Canvas.Context) : t :=
  mk (UNIVERSE_GRAVITY s) (UNIVERSE_FRICTION s) (PARTICLE_MASS_MIN s)
     (PARTICLE_MASS_MAX s) (PARTICLE_BURN_RATE s) (PARTICLE_SHARPNESS s)
     (PARTICLE_VELOCITY_X_MIN s) (PARTICLE_VELOCITY_X_MAX s)
     (PARTICLE_VELOCITY_Y_MIN s) (PARTICLE_VELOCITY_Y_MAX s)
     (SPAWN_COLOR s) (x s) (y s) (particles s) (autoSpawn s) (canvas s) v
     (autoClear s) (dirtyRegion s) (lastFrameTime s).
Definition set_dirtyRegion (s : t) (v : DirtyRegion) : t :=
  mk (UNIVERSE_GRAVITY s) (UNIVERSE_FRICTION s) (PARTICLE_MASS_MIN s)
     (PARTICLE_MASS_MAX s) (PARTICLE_BURN_RATE s) (PARTICLE_SHARPNESS s)
     (PARTICLE_VELOCITY_X_MIN s) (PARTICLE_VELOCITY_X_MAX s)
     (PARTICLE_VELOCITY_Y_MIN s) (PARTICLE_VELOCITY_Y_MAX s)
     (SPAWN_COLOR s) (x s) (y s) (particles s) (autoSpawn s) (canvas s)
     (ctx s) (autoClear s) v (lastFrameTime s).
Definition set_lastFrameTime (s : t) (v : R) : t :=
  mk (UNIVERSE_GRAVITY s) (UNIVERSE_FRICTION s) (PARTICLE_MASS_MIN s)
     (PARTICLE_MASS_MAX s) (PARTICLE_BURN_RATE s) (PARTICLE_SHARPNESS s)
     (PARTICLE_VELOCITY_X_MIN s) (PARTICLE_VELOCITY_X_MAX s)
     (PARTICLE_VELOCITY_Y_MIN s) (PARTICLE_VELOCITY_Y_MAX s)
     (SPAWN_COLOR s) (x s) (y s) (particles s) (autoSpawn s) (canvas s)
     (ctx s) (autoClear s) (dirtyRegion s) v.

Definition set_xMin (d : DirtyRegion) (v : R) : DirtyRegion :=
  mkDirtyRegion v (xMax d) (yMin d) (yMax d).
Definition set_xMax (d : DirtyRegion) (v : R) : DirtyRegion :=
  mkDirtyRegion (xMin d) v (yMin d) (yMax d).
Definition set_yMin (d : DirtyRegion) (v : R) : DirtyRegion :=
  mkDirtyRegion (xMin d) (xMax d) v (yMax d).
Definition set_yMax (d : DirtyRegion) (v : R) : DirtyRegion :=
  mkDirtyRegion (xMin d) (xMax d) (yMin d) v.

(** [this.particles[i]]: [None] is JavaScript's [undefined]. *)
Definition array_get {A : Type} (l : list A) (i : Z) : option A :=
  if (i <? 0)%Z then None else l !! Z.to_nat i.

(** *** drawNextFrame *)

(** Line 86: the time since the last frame was drawn, for the clock
    reading [time]. *)
Definition timeSinceLastFrame (s : t) (time : R) : R :=
  if JS.gtb (lastFrameTime s) 0 then time - lastFrameTime s else 0.

(** Line 90: the frame delay multiple. *)
Definition frameMultiple (timeSinceLastFrame : R) : R :=
  if JS.strict_eqb timeSinceLastFrame 0 then 1
  else timeSinceLastFrame / (1000 / 60).

(** Lines 92-106: clear, then reset, the dirty region. *)
Definition clearDirtyRegion (s : t) : t :=
  if autoClear s then
    let margin := PARTICLE_MASS_MAX s * 2 in
    let s :=
      set_ctx s
        (ctx s ++ [Canvas.clearRect
                     (xMin (dirtyRegion s) - margin)
                     (yMin (dirtyRegion s) - margin)
                     (xMax (dirtyRegion s) - xMin (dirtyRegion s)
                      + margin * 2)
                     (yMax (dirtyRegion s) - yMin (dirtyRegion s)
                      + margin * 2)]) in
    let s :=
      set_dirtyRegion s
        (set_xMin (dirtyRegion s) (Canvas.width (canvas s))) in
    let s := set_dirtyRegion s (set_xMax (dirtyRegion s) 0) in
    let s :=
      set_dirtyRegion s
        (set_yMin (dirtyRegion s) (Canvas.height (canvas s))) in
    set_dirtyRegion s (set_yMax (dirtyRegion s) 0)
  else s.

(** Lines 114-119: apply velocities and forces, one assignment after the
    other, each reading the fields as the previous ones left them. *)
Definition applyForces (s : t) (m : R) (p : Particle2D.t) : Particle2D.t :=
  let p :=
    Particle2D.set_x p
      (Particle2D.x p + Particle2D.velocityX p * Particle2D.mass p * m) in
  let p :=
    Particle2D.set_y p
      (Particle2D.y p + Particle2D.velocityY p * Particle2D.mass p * m) in
  let p :=
    Particle2D.set_velocityX p
      (Particle2D.velocityX p * JS.Math_pow (1 - UNIVERSE_FRICTION s) m) in
  let p :=
    Particle2D.set_velocityY p
      (Particle2D.velocityY p * JS.Math_pow (1 - UNIVERSE_FRICTION s) m) in
  let p :=
    Particle2D.set_velocityY p
      (Particle2D.velocityY p + UNIVERSE_GRAVITY s * m) in
  Particle2D.set_alpha p
    (Particle2D.alpha p * JS.Math_pow (Particle2D.burnRate p) m).

(** Line 125: out of screen, or alpha close to zero. *)
Definition shouldRemove (s : t) (p : Particle2D.t) : bool :=
  JS.leb (Particle2D.alpha p) 0.1
  || JS.ltb (Particle2D.y p) 0
  || JS.ltb (Particle2D.x p) 0
  || JS.gtb (Particle2D.y p) (Canvas.height (canvas s))
  || JS.gtb (Particle2D.x p) (Canvas.width (canvas s)).

(** Lines 130-133: update the dirty region. *)
Definition updateDirtyRegion (d : DirtyRegion) (p : Particle2D.t)
  : DirtyRegion :=
  let d :=
    if JS.gtb (Particle2D.x p) (xMax d) then set_xMax d (Particle2D.x p)
    else d in
  let d :=
    if JS.ltb (Particle2D.x p) (xMin d) then set_xMin d (Particle2D.x p)
    else d in
  let d :=
    if JS.gtb (Particle2D.y p) (yMax d) then set_yMax d (Particle2D.y p)
    else d in
  if JS.ltb (Particle2D.y p) (yMin d) then set_yMin d (Particle2D.y p)
  else d.

(** Lines 111-134: the body of the loop for [p = this.particles[i]]. The
    particle is an object held by the array, so its new fields are the
    array's: the updated record is written back at [i]. The result is
    the system and the value of [i] at the end of the body. *)
Definition loopBody (s : t) (m : R) (i : Z) (p : Particle2D.t) : t * Z :=
  let p := applyForces s m p in
  let s := set_particles s (<[Z.to_nat i := p]> (particles s)) in
  let s := set_ctx s (Particle2D.draw p (ctx s)) in
  if shouldRemove s p then
    (set_particles s (delete (Z.to_nat i) (particles s)), (i - 1)%Z)
  else if autoClear s then
    (set_dirtyRegion s (updateDirtyRegion (dirtyRegion s) p), i)
  else (s, i).

(** The body stays folded while the recursion of the loop is set up. *)
#[local] Opaque loopBody.

(** A value together with the equation that says where it came from, for
    the termination argument of the loop. *)
Definition inspect {A : Type} (a : A) : {b : A | a = b} :=
  exist _ a eq_refl.

(** Lines 109-136: the [for] loop, from the test [i < length] on. [None]
    is the TypeError of reading a field of [undefined]. *)
Equations? drawLoop (s : t) (m : R) (i : Z) : option t
  by wf (Z.to_nat (Z.of_nat (length (particles s)) - i)) lt :=
  drawLoop s m i with Z_lt_dec i (Z.of_nat (length (particles s))) := {
    | right _ => Some s
    | left Hlt with inspect (array_get (particles s) i) := {
        | exist _ None _ => None
        | exist _ (Some p) Hp =>
            drawLoop (fst (loopBody s m i p)) m
                     (snd (loopBody s m i p) + 1) } }.
Proof.
  unfold array_get in Hp.
  destruct (i <? 0)%Z eqn:Hneg; [discriminate|].
  apply Z.ltb_ge in Hneg. apply lookup_lt_Some in Hp.
  Transparent loopBody. unfold loopBody.
  destruct (shouldRemove _ _); [|destruct (autoClear _)]; cbn.
  - rewrite length_delete, length_insert; [lia|].
    apply lookup_lt_is_Some. rewrite length_insert. exact Hp.
  - rewrite length_insert. lia.
  - rewrite length_insert. lia.
Qed.

#[local] Transparent loopBody.

Definition drawNextFrame (s : t) (time : R) : option t :=
  let timeSinceLastFrame := timeSinceLastFrame s time in
  let s := set_lastFrameTime s time in
  let m := frameMultiple timeSinceLastFrame in
  let s := clearDirtyRegion s in
  drawLoop s m 0.

(** *** spawn *)

(** Lines 148-160: one turn of the loop, a new particle at the spawn
    position pushed on [particles]; four random draws are used. *)
Definition spawnBody (s : t) (rnd : JS.Random) : t * JS.Random :=
  let particle := Particle2D.new (x s) (y s) in
  let (r, rnd) := JS.Math_random rnd in
  let particle :=
    Particle2D.set_velocityX particle
      (r * (PARTICLE_VELOCITY_X_MAX s - PARTICLE_VELOCITY_X_MIN s)
       + PARTICLE_VELOCITY_X_MIN s) in
  let (r, rnd) := JS.Math_random rnd in
  let particle :=
    Particle2D.set_velocityY particle
      (r * (PARTICLE_VELOCITY_Y_MAX s - PARTICLE_VELOCITY_Y_MIN s)
       + PARTICLE_VELOCITY_Y_MIN s) in
  let (r, rnd) := JS.Math_random rnd in
  let particle :=
    Particle2D.set_mass particle
      (r * (PARTICLE_MASS_MAX s - PARTICLE_MASS_MIN s)
       + PARTICLE_MASS_MIN s) in
  let (r, rnd) := JS.Math_random rnd in
  let particle := Particle2D.set_alpha particle r in
  let particle := Particle2D.set_burnRate particle (PARTICLE_BURN_RATE s) in
  let particle :=
    Particle2D.set_sharpness particle (PARTICLE_SHARPNESS s) in
  let particle :=
    Particle2D.set_color particle
      (Particle2D.set_RED (Particle2D.color particle)
         (Particle2D.RED (SPAWN_COLOR s))) in
  let particle :=
    Particle2D.set_color particle
      (Particle2D.set_GREEN (Particle2D.color particle)
         (Particle2D.GREEN (SPAWN_COLOR s))) in
  let particle :=
    Particle2D.set_color particle
      (Particle2D.set_BLUE (Particle2D.color particle)
         (Particle2D.BLUE (SPAWN_COLOR s))) in
  (set_particles s (particles s ++ [particle]), rnd).

(** As for [drawLoop], the body stays folded while the recursion is set
    up. *)
#[local] Opaque spawnBody.

(** Lines 144-163: [for (n; n > 0; n--)], for the integer count [n] the
    documentation of the method asks for. *)
Equations? spawn (s : t) (rnd : JS.Random) (n : Z) : t * JS.Random
  by wf (Z.to_nat n) lt :=
  spawn s rnd n with Z_gt_dec n 0 := {
    | left Hgt =>
        spawn (fst (spawnBody s rnd)) (snd (spawnBody s rnd)) (n - 1)
    | right _ => (s, rnd) }.
Proof. lia. Qed.

#[local] Transparent spawnBody.

End ParticleSystem.

(** ** The older variant ([src/unnamed/part_000])

    Its [Particle2D] (lines 143-187) is the one above, its
    [ParticleSystem] differs in the settings (velocities and gravity per
    second, a configurable [FPS], no [autoSpawn]) and in the division by
    1000 of the displacement. The update of the dirty region (lines
    99-102) reads and writes the region and the particle alone and is
    [ParticleSystem.updateDirtyRegion]. *)
Module ParticleSystemPerSecond.

Record t : Type := mk {
  UNIVERSE_GRAVITY : R;
  UNIVERSE_FRICTION : R;
  PARTICLE_MASS_MIN : R;
  PARTICLE_MASS_MAX : R;
  PARTICLE_BURN_RATE : R;
  PARTICLE_SHARPNESS : R;
  PARTICLE_VELOCITY_X_MIN : R;
  PARTICLE_VELOCITY_X_MAX : R;
  PARTICLE_VELOCITY_Y_MIN : R;
  PARTICLE_VELOCITY_Y_MAX : R;
  FPS : R;
  SPAWN_COLOR : Particle2D.Color;
  x : R;
  y : R;
  particles : list Particle2D.t;
  canvas : Canvas.t;
  ctx : Canvas.Context;
  autoClear : bool;
  dirtyRegion : ParticleSystem.DirtyRegion;
  lastFrameTime : R
}.

(** [new ParticleSystem(canvas)], lines 7-45. *)
Definition new (canvas0 : Canvas.t) : t :=
  {| UNIVERSE_GRAVITY := 0.5;
     UNIVERSE_FRICTION := 0.02;
     PARTICLE_MASS_MIN := 30;
     PARTICLE_MASS_MAX := 60;
     PARTICLE_BURN_RATE := 0.97;
     PARTICLE_SHARPNESS := 0.2;
     PARTICLE_VELOCITY_X_MIN := -55;
     PARTICLE_VELOCITY_X_MAX := 55;
     PARTICLE_VELOCITY_Y_MIN := -180;
     PARTICLE_VELOCITY_Y_MAX := 0;
     FPS := 60;
     SPAWN_COLOR := {| Particle2D.RED := 255; Particle2D.GREEN := 155;
                       Particle2D.BLUE := 0 |};
     x := JS.sar (Canvas.width canvas0) 1;
     y := Canvas.height canvas0 * 0.8;
     particles := [];
     canvas := canvas0;
     ctx := Canvas.getContext canvas0
              ++ [Canvas.set_globalCompositeOperation "lighter"];
     autoClear := true;
     dirtyRegion :=
       {| ParticleSystem.xMin := 0; ParticleSystem.xMax := 0;
          ParticleSystem.yMin := 0; ParticleSystem.yMax := 0 |};
     lastFrameTime := -1 |}.

(** Line 59: the frame delay multiple. *)
Definition frameMultiple (s : t) (timeSinceLastFrame : R) : R :=
  if JS.strict_eqb timeSinceLastFrame 0 then 1
  else timeSinceLastFrame / (1000 / FPS s).

(** Lines 83-88: apply velocities and forces. *)
Definition applyForces (s : t) (m : R) (p : Particle2D.t) : Particle2D.t :=
  let p :=
    Particle2D.set_x p
      (Particle2D.x p
       + Particle2D.velocityX p * Particle2D.mass p * m / 1000) in
  let p :=
    Particle2D.set_y p
      (Particle2D.y p
       + Particle2D.velocityY p * Particle2D.mass p * m / 1000) in
  let p :=
    Particle2D.set_velocityX p
      (Particle2D.velocityX p * JS.Math_pow (1 - UNIVERSE_FRICTION s) m) in
  let p :=
    Particle2D.set_velocityY p
      (Particle2D.velocityY p * JS.Math_pow (1 - UNIVERSE_FRICTION s) m) in
  let p :=
    Particle2D.set_velocityY p
      (Particle2D.velocityY p + UNIVERSE_GRAVITY s * m) in
  Particle2D.set_alpha p
    (Particle2D.alpha p * JS.Math_pow (Particle2D.burnRate p) m).

(** Assignments to the fields the methods write. *)
Definition set_particles (s : t) (v : list Particle2D.t) : t :=
  mk (UNIVERSE_GRAVITY s) (UNIVERSE_FRICTION s) (PARTICLE_MASS_MIN s)
     (PARTICLE_MASS_MAX s) (PARTICLE_BURN_RATE s) (PARTICLE_SHARPNESS s)
     (PARTICLE_VELOCITY_X_MIN s) (PARTICLE_VELOCITY_X_MAX s)
     (PARTICLE_VELOCITY_Y_MIN s) (PARTICLE_VELOCITY_Y_MAX s) (FPS s)
     (SPAWN_COLOR s) (x s) (y s) v (canvas s) (ctx s)
     (autoClear s) (dirtyRegion s) (lastFrameTime s).
Definition set_ctx (s : t) (v : Canvas.Context) : t :=
  mk (UNIVERSE_GRAVITY s) (UNIVERSE_FRICTION s) (PARTICLE_MASS_MIN s)
     (PARTICLE_MASS_MAX s) (PARTICLE_BURN_RATE s) (PARTICLE_SHARPNESS s)
     (PARTICLE_VELOCITY_X_MIN s) (PARTICLE_VELOCITY_X_MAX s)
     (PARTICLE_VELOCITY_Y_MIN s) (PARTICLE_VELOCITY_Y_MAX s) (FPS s)
     (SPAWN_COLOR s) (x s) (y s) (particles s) (canvas s) v
     (autoClear s) (dirtyRegion s) (lastFrameTime s).
Definition set_dirtyRegion (s : t) (v : ParticleSystem.DirtyRegion) : t :=
  mk (UNIVERSE_GRAVITY s) (UNIVERSE_FRICTION s) (PARTICLE_MASS_MIN s)
     (PARTICLE_MASS_MAX s) (PARTICLE_BURN_RATE s) (PARTICLE_SHARPNESS s)
     (PARTICLE_VELOCITY_X_MIN s) (PARTICLE_VELOCITY_X_MAX s)
     (PARTICLE_VELOCITY_Y_MIN s) (PARTICLE_VELOCITY_Y_MAX s) (FPS s)
     (SPAWN_COLOR s) (x s) (y s) (particles s) (canvas s) (ctx s)
     (autoClear s) v (lastFrameTime s).
Definition set_lastFrameTime (s : t) (v : R) : t :=
  mk (UNIVERSE_GRAVITY s) (UNIVERSE_FRICTION s) (PARTICLE_MASS_MIN s)
     (PARTICLE_MASS_MAX s) (PARTICLE_BURN_RATE s) (PARTICLE_SHARPNESS s)
     (PARTICLE_VELOCITY_X_MIN s) (PARTICLE_VELOCITY_X_MAX s)
     (PARTICLE_VELOCITY_Y_MIN s) (PARTICLE_VELOCITY_Y_MAX s) (FPS s)
     (SPAWN_COLOR s) (x s) (y s) (particles s) (canvas s) (ctx s)
     (autoClear s) (dirtyRegion s) v.

(** Line 55: the time since the last frame was drawn. *)
Definition timeSinceLastFrame (s : t) (time : R) : R :=
  if JS.gtb (lastFrameTime s) 0 then time - lastFrameTime s else 0.

(** Lines 61-75: clear, then reset, the dirty region. *)
Definition clearDirtyRegion (s : t) : t :=
  if autoClear s then
    let margin := PARTICLE_MASS_MAX s * 2 in
    let s :=
      set_ctx s
        (ctx s ++ [Canvas.clearRect
                     (ParticleSystem.xMin (dirtyRegion s) - margin)
                     (ParticleSystem.yMin (dirtyRegion s) - margin)
                     (ParticleSystem.xMax (dirtyRegion s)
                      - ParticleSystem.xMin (dirtyRegion s) + margin * 2)
                     (ParticleSystem.yMax (dirtyRegion s)
                      - ParticleSystem.yMin (dirtyRegion s)
                      + margin * 2)]) in
    let s :=
      set_dirtyRegion s
        (ParticleSystem.set_xMin (dirtyRegion s)
           (Canvas.width (canvas s))) in
    let s :=
      set_dirtyRegion s (ParticleSystem.set_xMax (dirtyRegion s) 0) in
    let s :=
      set_dirtyRegion s
        (ParticleSystem.set_yMin (dirtyRegion s)
           (Canvas.height (canvas s))) in
    set_dirtyRegion s (ParticleSystem.set_yMax (dirtyRegion s) 0)
  else s.

(** Line 94: out of screen, or alpha close to zero. *)
Definition shouldRemove (s : t) (p : Particle2D.t) : bool :=
  JS.leb (Particle2D.alpha p) 0.1
  || JS.ltb (Particle2D.y p) 0
  || JS.ltb (Particle2D.x p) 0
  || JS.gtb (Particle2D.y p) (Canvas.height (canvas s))
  || JS.gtb (Particle2D.x p) (Canvas.width (canvas s)).

(** Lines 80-103: the body of the loop for [p = this.particles[i]]. *)
Definition loopBody (s : t) (m : R) (i : Z) (p : Particle2D.t) : t * Z :=
  let p := applyForces s m p in
  let s := set_particles s (<[Z.to_nat i := p]> (particles s)) in
  let s := set_ctx s (Particle2D.draw p (ctx s)) in
  if shouldRemove s p then
    (set_particles s (delete (Z.to_nat i) (particles s)), (i - 1)%Z)
  else if autoClear s then
    (set_dirtyRegion s
       (ParticleSystem.updateDirtyRegion (dirtyRegion s) p), i)
  else (s, i).

(** The body stays folded while the recursion of the loop is set up. *)
#[local] Opaque loopBody.

(** Lines 78-105: the [for] loop, from the test [i < length] on. *)
Equations? drawLoop (s : t) (m : R) (i : Z) : option t
  by wf (Z.to_nat (Z.of_nat (length (particles s)) - i)) lt :=
  drawLoop s m i with Z_lt_dec i (Z.of_nat (length (particles s))) := {
    | right _ => Some s
    | left Hlt
        with ParticleSystem.inspect
               (ParticleSystem.array_get (particles s) i) := {
        | exist _ None _ => None
        | exist _ (Some p) Hp =>
            drawLoop (fst (loopBody s m i p)) m
                     (snd (loopBody s m i p) + 1) } }.
Proof.
  unfold ParticleSystem.array_get in Hp.
  destruct (i <? 0)%Z eqn:Hneg; [discriminate|].
  apply Z.ltb_ge in Hneg. apply lookup_lt_Some in Hp.
  Transparent loopBody. unfold loopBody.
  destruct (shouldRemove _ _); [|destruct (autoClear _)]; cbn.
  - rewrite length_delete, length_insert; [lia|].
    apply lookup_lt_is_Some. rewrite length_insert. exact Hp.
  - rewrite length_insert. lia.
  - rewrite length_insert. lia.
Qed.

#[local] Transparent loopBody.

(** Lines 51-107. *)
Definition drawNextFrame (s : t) (time : R) : option t :=
  let timeSinceLastFrame := timeSinceLastFrame s time in
  let s := set_lastFrameTime s time in
  let m := frameMultiple s timeSinceLastFrame in
  let s := clearDirtyRegion s in
  drawLoop s m 0.

(** Lines 117-129: one turn of the loop of [spawn]. *)
Definition spawnBody (s : t) (rnd : JS.Random) : t * JS.Random :=
  let particle := Particle2D.new (x s) (y s) in
  let (r, rnd) := JS.Math_random rnd in
  let particle :=
    Particle2D.set_velocityX particle
      (r * (PARTICLE_VELOCITY_X_MAX s - PARTICLE_VELOCITY_X_MIN s)
       + PARTICLE_VELOCITY_X_MIN s) in
  let (r, rnd) := JS.Math_random rnd in
  let particle :=
    Particle2D.set_velocityY particle
      (r * (PARTICLE_VELOCITY_Y_MAX s - PARTICLE_VELOCITY_Y_MIN s)
       + PARTICLE_VELOCITY_Y_MIN s) in
  let (r, rnd) := JS.Math_random rnd in
  let particle :=
    Particle2D.set_mass particle
      (r * (PARTICLE_MASS_MAX s - PARTICLE_MASS_MIN s)
       + PARTICLE_MASS_MIN s) in
  let (r, rnd) := JS.Math_random rnd in
  let particle := Particle2D.set_alpha particle r in
  let particle := Particle2D.set_burnRate particle (PARTICLE_BURN_RATE s) in
  let particle :=
    Particle2D.set_sharpness particle (PARTICLE_SHARPNESS s) in
  let particle :=
    Particle2D.set_color particle
      (Particle2D.set_RED (Particle2D.color particle)
         (Particle2D.RED (SPAWN_COLOR s))) in
  let particle :=
    Particle2D.set_color particle
      (Particle2D.set_GREEN (Particle2D.color particle)
         (Particle2D.GREEN (SPAWN_COLOR s))) in
  let particle :=
    Particle2D.set_color particle
      (Particle2D.set_BLUE (Particle2D.color particle)
         (Particle2D.BLUE (SPAWN_COLOR s))) in
  (set_particles s (particles s ++ [particle]), rnd).

(** The body stays folded while the recursion is set up. *)
#[local] Opaque spawnBody.

(** Lines 113-132: [for (n; n > 0; n--)], for an integer count [n]. *)
Equations? spawn (s : t) (rnd : JS.Random) (n : Z) : t * JS.Random
  by wf (Z.to_nat n) lt :=
  spawn s rnd n with Z_gt_dec n 0 := {
    | left Hgt =>
        spawn (fst (spawnBody s rnd)) (snd (spawnBody s rnd)) (n - 1)
    | right _ => (s, rnd) }.
Proof. lia. Qed.

#[local] Transparent spawnBody.

End ParticleSystemPerSecond.

(** ** The arithmetic that differs between the variants, in binary64

    The same lines as above with the operators of JavaScript on doubles
    (IEEE 754 binary64, round to nearest even), for the places where the
    two variants do not compute the same expression. *)
Module Double.

#[local] Open Scope float_scope.

(** A decimal literal denotes the nearest double, as in JavaScript. *)
#[local] Set Warnings "-inexact-float".

(** [src/particles.js] lines 114-115, for one coordinate:
    [p.x += p.velocityX * p.mass * m]. *)
Definition integrate (x velocity mass m : float) : float :=
  x + velocity * mass * m.

(** [src/unnamed/part_000] lines 83-84, for one coordinate:
    [p.x += p.velocityX * p.mass * m / 1000]. *)
Definition integratePerSecond (x velocity mass m : float) : float :=
  x + velocity * mass * m / 1000.

(** Line 125 of [src/particles.js], line 94 of [src/unnamed/part_000]. *)
Definition shouldRemove (alpha x y width height : float) : bool :=
  (alpha <=? 0.1) || (y <? 0) || (x <? 0) || (height <? y) || (width <? x).

(** Lines 150-152 of [src/particles.js], 119-121 of
    [src/unnamed/part_000]: [Math.random() * (MAX - MIN) + MIN] for the
    draw [r]. *)
Definition randomBetween (r MAX MIN : float) : float :=
  r * (MAX - MIN) + MIN.

End Double.


(** ** Descriptions of a frame, used by the statements below *)

Import ParticleSystem.

(** The calls one [draw] adds to the log. *)
Definition drawCalls (p : Particle2D.t) : list Canvas.Call :=
  Particle2D.draw p [].

(** The particles after the physics step of a frame of multiple [m]. *)
Definition updated (s : t) (m : R) (ps : list Particle2D.t)
  : list Particle2D.t :=
  map (applyForces s m) ps.

(** A particle the removal test of line 125 lets through. *)
Definition live (s : t) (p : Particle2D.t) : bool :=
  negb (shouldRemove s p).

(** The updated particles that stay, in order. *)
Definition survivors (s : t) (m : R) (ps : list Particle2D.t)
  : list Particle2D.t :=
  List.filter (live s) (updated s m ps).

(** The frame delay multiple [drawNextFrame] computes at the clock reading
    [time]. *)
Definition frameMultipleAt (s : t) (time : R) : R :=
  frameMultiple (timeSinceLastFrame s time).

(** The settings the loop reads and never writes. *)
Definition sameSettings (s s' : t) : Prop :=
  UNIVERSE_GRAVITY s = UNIVERSE_GRAVITY s'
  /\ UNIVERSE_FRICTION s = UNIVERSE_FRICTION s'
  /\ canvas s = canvas s'
  /\ autoClear s = autoClear s'
  /\ PARTICLE_MASS_MAX s = PARTICLE_MASS_MAX s'.

(** The physics step of successive frames of multiples [ms]. *)
Definition applyForcesMany (s : t) (ms : list R) (p : Particle2D.t)
  : Particle2D.t :=
  fold_left (fun q m => applyForces s m q) ms p.

(** A particle of [src/particles.js] in the units of
    [src/unnamed/part_000]: velocities per second. *)
Definition perSecond (p : Particle2D.t) : Particle2D.t :=
  Particle2D.set_velocityY
    (Particle2D.set_velocityX p (1000 * Particle2D.velocityX p))
    (1000 * Particle2D.velocityY p).

(** The system at the head of the loop of [drawNextFrame]: the clock
    reading stored, the dirty region cleared and reset. *)
Definition frameStart (s : t) (time : R) : t :=
  clearDirtyRegion (set_lastFrameTime s time).

(** The call that clears the dirty region, when [autoClear] is set. *)
Definition clearCalls (s : t) : list Canvas.Call :=
  if autoClear s then
    [Canvas.clearRect
       (xMin (dirtyRegion s) - PARTICLE_MASS_MAX s * 2)
       (yMin (dirtyRegion s) - PARTICLE_MASS_MAX s * 2)
       (xMax (dirtyRegion s) - xMin (dirtyRegion s)
        + PARTICLE_MASS_MAX s * 2 * 2)
       (yMax (dirtyRegion s) - yMin (dirtyRegion s)
        + PARTICLE_MASS_MAX s * 2 * 2)]
  else [].

(** The dirty region as lines 102-105 reset it. *)
Definition resetRegion (s : t) : DirtyRegion :=
  {| xMin := Canvas.width (canvas s); xMax := 0;
     yMin := Canvas.height (canvas s); yMax := 0 |}.

(** The box [d], grown by [margin] on every side, holds the position of
    [p]. *)
Definition inside (d : DirtyRegion) (margin : R) (p : Particle2D.t) : Prop :=
  xMin d - margin <= Particle2D.x p <= xMax d + margin
  /\ yMin d - margin <= Particle2D.y p <= yMax d + margin.

(** [d'] holds the box [d]. *)
Definition grows (d d' : DirtyRegion) : Prop :=
  xMin d' <= xMin d /\ xMax d <= xMax d'
  /\ yMin d' <= yMin d /\ yMax d <= yMax d'.

Definition isFillRect (c : Canvas.Call) : bool :=
  match c with
  | Canvas.fillRect _ _ _ _ => true
  | _ => false
  end.

(** The system the loop of [drawNextFrame] leaves when it starts at index
    [length done] with [done ++ todo] in [particles]: every particle of
    [todo] drawn once after its update, the survivors kept in order, and
    the dirty region grown by the survivors alone. *)
Definition loopResult (s : t) (m : R) (done todo : list Particle2D.t) : t :=
  set_dirtyRegion
    (set_particles
       (set_ctx s (ctx s ++ concat (map drawCalls (updated s m todo))))
       (done ++ survivors s m todo))
    (if autoClear s
     then fold_left updateDirtyRegion (survivors s m todo) (dirtyRegion s)
     else dirtyRegion s).

(** ** Descriptions of [spawn] *)

(** The particle one turn of [spawn] makes from the next four draws. *)
Definition spawnedParticle (s : t) (rnd : JS.Random) : Particle2D.t :=
  {| Particle2D.x := x s;
     Particle2D.y := y s;
     Particle2D.velocityX :=
       rnd 0%nat * (PARTICLE_VELOCITY_X_MAX s - PARTICLE_VELOCITY_X_MIN s)
       + PARTICLE_VELOCITY_X_MIN s;
     Particle2D.velocityY :=
       rnd 1%nat * (PARTICLE_VELOCITY_Y_MAX s - PARTICLE_VELOCITY_Y_MIN s)
       + PARTICLE_VELOCITY_Y_MIN s;
     Particle2D.mass :=
       rnd 2%nat * (PARTICLE_MASS_MAX s - PARTICLE_MASS_MIN s)
       + PARTICLE_MASS_MIN s;
     Particle2D.alpha := rnd 3%nat;
     Particle2D.burnRate := PARTICLE_BURN_RATE s;
     Particle2D.sharpness := PARTICLE_SHARPNESS s;
     Particle2D.color :=
       {| Particle2D.RED := Particle2D.RED (SPAWN_COLOR s);
          Particle2D.GREEN := Particle2D.GREEN (SPAWN_COLOR s);
          Particle2D.BLUE := Particle2D.BLUE (SPAWN_COLOR s) |} |}.

(** The stream after four draws. *)
Definition afterFour (rnd : JS.Random) : JS.Random :=
  fun k => rnd (S (S (S (S k)))).

(** The particles [k] turns make, in the order they are pushed. *)
Fixpoint spawnedList (s : t) (rnd : JS.Random) (k : nat)
  : list Particle2D.t :=
  match k with
  | O => []
  | S k' => spawnedParticle s rnd :: spawnedList s (afterFour rnd) k'
  end.

(** A spawned particle within the ranges of the settings. *)
Definition withinSettings (s : t) (q : Particle2D.t) : Prop :=
  PARTICLE_VELOCITY_X_MIN s <= Particle2D.velocityX q
    <= PARTICLE_VELOCITY_X_MAX s
  /\ PARTICLE_VELOCITY_Y_MIN s <= Particle2D.velocityY q
     <= PARTICLE_VELOCITY_Y_MAX s
  /\ PARTICLE_MASS_MIN s <= Particle2D.mass q <= PARTICLE_MASS_MAX s
  /\ 0 <= Particle2D.alpha q < 1
  /\ Particle2D.burnRate q = PARTICLE_BURN_RATE s
  /\ Particle2D.sharpness q = PARTICLE_SHARPNESS s
  /\ Particle2D.RED (Particle2D.color q) = Particle2D.RED (SPAWN_COLOR s)
  /\ Particle2D.GREEN (Particle2D.color q)
     = Particle2D.GREEN (SPAWN_COLOR s)
  /\ Particle2D.BLUE (Particle2D.color q) = Particle2D.BLUE (SPAWN_COLOR s).

(** ** Further descriptions of a frame *)


(** What the physics step never writes. *)
Definition fixedFields (p : Particle2D.t)
  : R * R * R * Particle2D.Color :=
  (Particle2D.mass p, Particle2D.burnRate p, Particle2D.sharpness p,
   Particle2D.color p).

(** The sum of the frame multiples of a run of frames. *)
Definition totalMultiple (ms : list R) : R := fold_right Rplus 0 ms.

(** The rectangle [x, x + w] x [y, y + h] holds the square of side [size]
    whose corner is ([X], [Y]). *)
Definition rectHoldsSquare (x y w h X Y size : R) : Prop :=
  x <= X /\ X + size <= x + w /\ y <= Y /\ Y + size <= y + h.

(** ** The two variants *)

(** A system of [src/particles.js] in the units of [src/unnamed/part_000]:
    velocities and gravity per second, 60 frames per second. *)
Definition toPerSecond (s : t) : ParticleSystemPerSecond.t :=
  {| ParticleSystemPerSecond.UNIVERSE_GRAVITY := 1000 * UNIVERSE_GRAVITY s;
     ParticleSystemPerSecond.UNIVERSE_FRICTION := UNIVERSE_FRICTION s;
     ParticleSystemPerSecond.PARTICLE_MASS_MIN := PARTICLE_MASS_MIN s;
     ParticleSystemPerSecond.PARTICLE_MASS_MAX := PARTICLE_MASS_MAX s;
     ParticleSystemPerSecond.PARTICLE_BURN_RATE := PARTICLE_BURN_RATE s;
     ParticleSystemPerSecond.PARTICLE_SHARPNESS := PARTICLE_SHARPNESS s;
     ParticleSystemPerSecond.PARTICLE_VELOCITY_X_MIN :=
       1000 * PARTICLE_VELOCITY_X_MIN s;
     ParticleSystemPerSecond.PARTICLE_VELOCITY_X_MAX :=
       1000 * PARTICLE_VELOCITY_X_MAX s;
     ParticleSystemPerSecond.PARTICLE_VELOCITY_Y_MIN :=
       1000 * PARTICLE_VELOCITY_Y_MIN s;
     ParticleSystemPerSecond.PARTICLE_VELOCITY_Y_MAX :=
       1000 * PARTICLE_VELOCITY_Y_MAX s;
     ParticleSystemPerSecond.FPS := 60;
     ParticleSystemPerSecond.SPAWN_COLOR := SPAWN_COLOR s;
     ParticleSystemPerSecond.x := x s;
     ParticleSystemPerSecond.y := y s;
     ParticleSystemPerSecond.particles := map perSecond (particles s);
     ParticleSystemPerSecond.canvas := canvas s;
     ParticleSystemPerSecond.ctx := ctx s;
     ParticleSystemPerSecond.autoClear := autoClear s;
     ParticleSystemPerSecond.dirtyRegion := dirtyRegion s;
     ParticleSystemPerSecond.lastFrameTime := lastFrameTime s |}.

(** ** Sample data *)

(** A 200 x 200 canvas and the system built on it. *)
Definition canvas200 : Canvas.t := Canvas.mk 200 200.
Definition system200 : t := new canvas200.

(** A particle in the middle of that canvas, with settings [spawn] could
    have given it. *)
Definition sampleParticle : Particle2D.t :=
  {| Particle2D.x := 100; Particle2D.y := 100;
     Particle2D.velocityX := 0.05; Particle2D.velocityY := -0.1;
     Particle2D.mass := 40; Particle2D.alpha := 0.9;
     Particle2D.burnRate := 0.97; Particle2D.sharpness := 0.2;
     Particle2D.color := SPAWN_COLOR system200 |}.

(** The same particle with an odd mass. *)
Definition oddParticle : Particle2D.t := Particle2D.set_mass sampleParticle 45.

(** A particle at rest one pixel beyond the right edge. *)
Definition outsideParticle : Particle2D.t :=
  Particle2D.set_velocityY
    (Particle2D.set_velocityX (Particle2D.set_x sampleParticle 201) 0) 0.

(** The system with these two particles, a frame drawn at time 1000. *)
Definition sampleSystem : t :=
  set_lastFrameTime
    (set_particles system200 [sampleParticle; outsideParticle]) 1000.

(** The system whose one particle is the one beyond the edge. *)
Definition outsideSystem : t :=
  set_lastFrameTime (set_particles system200 [outsideParticle]) 1000.


(** * Properties *)

(** ** The loop of drawNextFrame *)

Lemma drawLoop_step (s : t) (m : R) (i : Z) :
  drawLoop s m i =
  if Z_lt_dec i (Z.of_nat (length (particles s))) then
    match array_get (particles s) i with
    | None => None
    | Some p => drawLoop (fst (loopBody s m i p)) m (snd (loopBody s m i p) + 1)
    end
  else Some s.
Proof.
  rewrite drawLoop_equation_1.
  destruct (Z_lt_dec i (Z.of_nat (length (particles s)))) as [Hlt|Hge].
  - cbn [drawLoop_unfold_clause_1].
    destruct (inspect (array_get (particles s) i)) as [[p|] Hp];
      cbn [drawLoop_unfold_clause_1_clause_2]; rewrite Hp; reflexivity.
  - reflexivity.
Qed.

Lemma draw_app (p : Particle2D.t) (context : Canvas.Context) :
  Particle2D.draw p context = context ++ drawCalls p.
Proof.
  unfold drawCalls, Particle2D.draw. cbv zeta.
  rewrite <- !app_assoc. reflexivity.
Qed.

Lemma array_get_middle {A : Type} (l1 l2 : list A) (a : A) :
  array_get (l1 ++ a :: l2) (Z.of_nat (length l1)) = Some a.
Proof.
  unfold array_get.
  destruct (Z.of_nat (length l1) <? 0)%Z eqn:E; [apply Z.ltb_lt in E; lia|].
  rewrite Nat2Z.id. apply list_lookup_middle. reflexivity.
Qed.

Lemma applyForces_settings (s s' : t) (m : R) (p : Particle2D.t) :
  sameSettings s s' -> applyForces s m p = applyForces s' m p.
Proof.
  intros (Hg & Hf & _). unfold applyForces. rewrite Hg, Hf. reflexivity.
Qed.

Lemma shouldRemove_settings (s s' : t) (p : Particle2D.t) :
  sameSettings s s' -> shouldRemove s p = shouldRemove s' p.
Proof.
  intros (_ & _ & Hc & _). unfold shouldRemove. rewrite Hc. reflexivity.
Qed.

Lemma survivors_settings (s s' : t) (m : R) (ps : list Particle2D.t) :
  sameSettings s s' -> survivors s m ps = survivors s' m ps.
Proof.
  intros H. unfold survivors, updated, live.
  induction ps as [|p ps IH]; [reflexivity|]. cbn [map List.filter].
  rewrite IH, (applyForces_settings s s' m p H).
  rewrite (shouldRemove_settings s s' _ H). reflexivity.
Qed.

Lemma updated_settings (s s' : t) (m : R) (ps : list Particle2D.t) :
  sameSettings s s' -> updated s m ps = updated s' m ps.
Proof.
  intros H. unfold updated. apply map_ext. intros p.
  apply applyForces_settings, H.
Qed.

(** What the setters leave alone. *)
Lemma sameSettings_refl (s : t) : sameSettings s s.
Proof. repeat split. Qed.

Lemma sameSettings_set_particles (s : t) (v : list Particle2D.t) :
  sameSettings (set_particles s v) s.
Proof. repeat split. Qed.

Lemma sameSettings_set_ctx (s : t) (v : Canvas.Context) :
  sameSettings (set_ctx s v) s.
Proof. repeat split. Qed.

Lemma sameSettings_set_dirtyRegion (s : t) (v : DirtyRegion) :
  sameSettings (set_dirtyRegion s v) s.
Proof. repeat split. Qed.

Lemma sameSettings_trans (s1 s2 s3 : t) :
  sameSettings s1 s2 -> sameSettings s2 s3 -> sameSettings s1 s3.
Proof.
  intros (A1 & A2 & A3 & A4 & A5) (B1 & B2 & B3 & B4 & B5).
  repeat split; etransitivity; eassumption.
Qed.

(** One turn of the loop at index [length done], on [done ++ p :: rest]. *)
Lemma loopBody_spec (s : t) (m : R) (done rest : list Particle2D.t)
      (p : Particle2D.t) :
  particles s = done ++ p :: rest ->
  loopBody s m (Z.of_nat (length done)) p =
  let p' := applyForces s m p in
  let s1 := set_ctx s (ctx s ++ drawCalls p') in
  if shouldRemove s p' then
    (set_particles s1 (done ++ rest), (Z.of_nat (length done) - 1)%Z)
  else if autoClear s then
    (set_dirtyRegion (set_particles s1 (done ++ p' :: rest))
       (updateDirtyRegion (dirtyRegion s) p'),
     Z.of_nat (length done))
  else (set_particles s1 (done ++ p' :: rest), Z.of_nat (length done)).
Proof.
  intros Hps. unfold loopBody. cbv zeta. rewrite Nat2Z.id.
  set (p' := applyForces s m p).
  change (ctx (set_particles s (<[length done:=p']> (particles s))))
    with (ctx s).
  rewrite draw_app.
  set (s2 := set_ctx _ _).
  rewrite (shouldRemove_settings s2 s) by repeat split.
  change (autoClear s2) with (autoClear s).
  change (dirtyRegion s2) with (dirtyRegion s).
  change (particles s2) with (<[length done:=p']> (particles s)).
  rewrite Hps.
  replace (<[length done:=p']> (done ++ p :: rest)) with (done ++ p' :: rest)
    by (rewrite insert_app_r_alt, Nat.sub_diag by lia; reflexivity).
  rewrite delete_middle.
  subst s2. rewrite Hps.
  replace (<[length done:=p']> (done ++ p :: rest)) with (done ++ p' :: rest)
    by (rewrite insert_app_r_alt, Nat.sub_diag by lia; reflexivity).
  destruct (shouldRemove s p'); [reflexivity|].
  destruct (autoClear s); reflexivity.
Qed.

Lemma loopResult_nil (s : t) (m : R) (done : list Particle2D.t) :
  particles s = done -> loopResult s m done [] = s.
Proof.
  intros <-. unfold loopResult, survivors, updated. cbn [map List.filter concat fold_left].
  rewrite !app_nil_r. destruct s as [? ? ? ? ? ? ? ? ? ? ? ? ? ? ? ? ? ac ? ?].
  destruct ac; reflexivity.
Qed.

Lemma survivors_cons (s : t) (m : R) (p : Particle2D.t)
      (ps : list Particle2D.t) :
  survivors s m (p :: ps) =
  if shouldRemove s (applyForces s m p) then survivors s m ps
  else applyForces s m p :: survivors s m ps.
Proof.
  unfold survivors, updated, live. cbn [map List.filter].
  destruct (shouldRemove s (applyForces s m p)); reflexivity.
Qed.

Lemma drawLoop_spec (m : R) (todo : list Particle2D.t) :
  forall (s : t) (done : list Particle2D.t),
    particles s = done ++ todo ->
    drawLoop s m (Z.of_nat (length done)) = Some (loopResult s m done todo).
Proof.
  induction todo as [|p rest IH]; intros s done Hps; rewrite drawLoop_step.
  - rewrite Hps, app_nil_r.
    destruct (Z_lt_dec _ _) as [Hlt|_]; [lia|].
    rewrite loopResult_nil; [reflexivity|]. rewrite Hps. apply app_nil_r.
  - destruct (Z_lt_dec _ _) as [_|Hge];
      [|rewrite Hps, length_app in Hge; cbn in Hge; lia].
    replace (array_get (particles s) _) with (Some p)
      by (rewrite Hps; symmetry; apply array_get_middle).
    rewrite (loopBody_spec s m done rest p Hps). cbv zeta.
    set (p' := applyForces s m p).
    unfold loopResult. rewrite survivors_cons. fold p'.
    destruct (shouldRemove s p') eqn:Hrm.
    + cbn [fst snd]. replace (Z.of_nat (length done) - 1 + 1)%Z
        with (Z.of_nat (length done)) by lia.
      set (s1 := set_particles (set_ctx s (ctx s ++ drawCalls p'))
                    (done ++ rest)).
      rewrite (IH s1 done) by reflexivity. unfold loopResult.
      assert (Hs : sameSettings s1 s) by repeat split.
      rewrite (survivors_settings _ _ _ _ Hs), (updated_settings _ _ _ _ Hs).
      change (ctx s1) with (ctx s ++ drawCalls p').
      change (autoClear s1) with (autoClear s).
      change (dirtyRegion s1) with (dirtyRegion s).
      unfold updated. cbn [map concat]. fold p'.
      rewrite <- app_assoc. reflexivity.
    + assert (Hlen : (Z.of_nat (length done) + 1)%Z
                     = Z.of_nat (length (done ++ [p'])))
        by (rewrite length_app; cbn; lia).
      assert (Hcons : forall l : list Particle2D.t,
                 done ++ p' :: l = (done ++ [p']) ++ l)
        by (intros l; rewrite <- app_assoc; reflexivity).
      destruct (autoClear s) eqn:Hac; cbn [fst snd]; rewrite Hlen.
      * set (s1 := set_dirtyRegion _ _).
        assert (Hs : sameSettings s1 s) by repeat split.
        rewrite (IH s1 (done ++ [p'])) by apply Hcons.
        unfold loopResult.
        rewrite (survivors_settings _ _ _ _ Hs), (updated_settings _ _ _ _ Hs).
        change (ctx s1) with (ctx s ++ drawCalls p').
        change (autoClear s1) with (autoClear s).
        change (dirtyRegion s1) with (updateDirtyRegion (dirtyRegion s) p').
        rewrite Hac.
        unfold updated. cbn [map concat fold_left]. fold p'.
        rewrite <- !app_assoc. reflexivity.
      * set (s1 := set_particles _ _).
        assert (Hs : sameSettings s1 s) by repeat split.
        rewrite (IH s1 (done ++ [p'])) by apply Hcons.
        unfold loopResult.
        rewrite (survivors_settings _ _ _ _ Hs), (updated_settings _ _ _ _ Hs).
        change (ctx s1) with (ctx s ++ drawCalls p').
        change (autoClear s1) with (autoClear s).
        change (dirtyRegion s1) with (dirtyRegion s).
        rewrite Hac.
        unfold updated. cbn [map concat]. fold p'.
        rewrite <- !app_assoc. reflexivity.
Qed.

Lemma frameStart_particles (s : t) (time : R) :
  particles (frameStart s time) = particles s.
Proof.
  unfold frameStart, clearDirtyRegion.
  destruct (autoClear (set_lastFrameTime s time)); reflexivity.
Qed.

Lemma frameStart_settings (s : t) (time : R) :
  sameSettings (frameStart s time) s.
Proof.
  unfold frameStart, clearDirtyRegion.
  destruct (autoClear (set_lastFrameTime s time)); repeat split.
Qed.

(** [drawNextFrame] always returns, with the system [loopResult]
    describes. *)
Lemma drawNextFrame_spec (s : t) (time : R) :
  drawNextFrame s time =
  Some (loopResult (frameStart s time) (frameMultipleAt s time) []
          (particles s)).
Proof.
  unfold drawNextFrame. cbv zeta.
  change (clearDirtyRegion (set_lastFrameTime s time))
    with (frameStart s time).
  change (frameMultiple (timeSinceLastFrame s time))
    with (frameMultipleAt s time).
  rewrite <- (frameStart_particles s time).
  apply (drawLoop_spec _ _ (frameStart s time) []).
  reflexivity.
Qed.

Lemma frameStart_ctx (s : t) (time : R) :
  ctx (frameStart s time) = ctx s ++ clearCalls s.
Proof.
  unfold frameStart, clearDirtyRegion, clearCalls.
  change (autoClear (set_lastFrameTime s time)) with (autoClear s).
  destruct (autoClear s); [reflexivity|].
  symmetry. apply app_nil_r.
Qed.

Lemma frameStart_dirtyRegion (s : t) (time : R) :
  dirtyRegion (frameStart s time) =
  if autoClear s then resetRegion s else dirtyRegion s.
Proof.
  unfold frameStart, clearDirtyRegion, resetRegion.
  change (autoClear (set_lastFrameTime s time)) with (autoClear s).
  destruct (autoClear s); reflexivity.
Qed.

(** The frame in closed form: what [drawNextFrame] returns, field by
    field. *)
Lemma drawNextFrame_fields (s : t) (time : R) :
  exists s' : t,
    drawNextFrame s time = Some s'
    /\ particles s' = survivors s (frameMultipleAt s time) (particles s)
    /\ ctx s' =
         ctx s ++ clearCalls s
         ++ concat (map drawCalls
                      (updated s (frameMultipleAt s time) (particles s)))
    /\ dirtyRegion s' =
         (if autoClear s
          then fold_left updateDirtyRegion
                 (survivors s (frameMultipleAt s time) (particles s))
                 (resetRegion s)
          else dirtyRegion s)
    /\ lastFrameTime s' = time
    /\ sameSettings s' s.
Proof.
  eexists. split; [apply drawNextFrame_spec|].
  pose proof (frameStart_settings s time) as Hs.
  unfold loopResult.
  rewrite (survivors_settings _ _ _ _ Hs), (updated_settings _ _ _ _ Hs).
  cbn [particles ctx dirtyRegion set_dirtyRegion set_particles set_ctx
       lastFrameTime app].
  rewrite frameStart_ctx, frameStart_dirtyRegion, <- app_assoc.
  destruct Hs as (H1 & H2 & H3 & H4 & H5). rewrite H4.
  repeat split; try assumption.
  - destruct (autoClear s); reflexivity.
  - unfold frameStart, clearDirtyRegion.
    destruct (autoClear (set_lastFrameTime s time)); reflexivity.
Qed.

(** ** Comparisons *)

Lemma ltb_true (a b : R) : JS.ltb a b = true <-> a < b.
Proof.
  unfold JS.ltb. destruct (Rlt_dec a b); split; intros H;
    try reflexivity; try assumption; try discriminate; contradiction.
Qed.

Lemma leb_true (a b : R) : JS.leb a b = true <-> a <= b.
Proof.
  unfold JS.leb. destruct (Rle_dec a b); split; intros H;
    try reflexivity; try assumption; try discriminate; contradiction.
Qed.

Lemma gtb_true (a b : R) : JS.gtb a b = true <-> a > b.
Proof. unfold JS.gtb. apply ltb_true. Qed.

Lemma shouldRemove_true (s : t) (p : Particle2D.t) :
  shouldRemove s p = true <->
  Particle2D.alpha p <= 0.1
  \/ Particle2D.y p < 0
  \/ Particle2D.x p < 0
  \/ Particle2D.y p > Canvas.height (canvas s)
  \/ Particle2D.x p > Canvas.width (canvas s).
Proof.
  unfold shouldRemove.
  rewrite !orb_true_iff, leb_true, !ltb_true, !gtb_true. tauto.
Qed.

Lemma drawCalls_fillRects (ps : list Particle2D.t) :
  length (List.filter isFillRect (concat (map drawCalls ps))) = length ps.
Proof.
  induction ps as [|p ps IH]; [reflexivity|].
  cbn [map concat]. rewrite List.filter_app, length_app, IH.
  reflexivity.
Qed.

(** ** The frame: update, draw, cull *)

(** C9. A call of [drawNextFrame] returns, and every particle in the live
    set at its start is updated and drawn exactly once in it, in order,
    whatever is removed on the way (the calls added to the context are the
    clear of the dirty region followed by the draw calls of each updated
    particle, one [fillRect] per particle); the live set at the end is the
    in-order filter of the updated particles by the negated removal
    test. The update is the physics step of lines 114-119 with the frame
    multiple of the call, the draw calls are the five calls of [draw], and
    the removal test is the one of line 125. *)
Theorem drawNextFrame_updates_draws_filters (s : t) (time : R) :
  exists s' : t,
    drawNextFrame s time = Some s'
    /\ ctx s' =
         ctx s ++ clearCalls s
         ++ concat (map drawCalls
                      (map (applyForces s (frameMultipleAt s time))
                           (particles s)))
    /\ length
         (List.filter isFillRect
            (concat (map drawCalls
                       (map (applyForces s (frameMultipleAt s time))
                            (particles s)))))
       = length (particles s)
    /\ particles s' =
         List.filter (fun p => negb (shouldRemove s p))
           (map (applyForces s (frameMultipleAt s time)) (particles s))
    /\ (forall p : Particle2D.t,
          applyForces s (frameMultipleAt s time) p =
          {| Particle2D.x :=
               Particle2D.x p
               + Particle2D.velocityX p * Particle2D.mass p
                 * frameMultipleAt s time;
             Particle2D.y :=
               Particle2D.y p
               + Particle2D.velocityY p * Particle2D.mass p
                 * frameMultipleAt s time;
             Particle2D.velocityX :=
               Particle2D.velocityX p
               * JS.Math_pow (1 - UNIVERSE_FRICTION s)
                   (frameMultipleAt s time);
             Particle2D.velocityY :=
               Particle2D.velocityY p
               * JS.Math_pow (1 - UNIVERSE_FRICTION s)
                   (frameMultipleAt s time)
               + UNIVERSE_GRAVITY s * frameMultipleAt s time;
             Particle2D.mass := Particle2D.mass p;
             Particle2D.alpha :=
               Particle2D.alpha p
               * JS.Math_pow (Particle2D.burnRate p)
                   (frameMultipleAt s time);
             Particle2D.burnRate := Particle2D.burnRate p;
             Particle2D.sharpness := Particle2D.sharpness p;
             Particle2D.color := Particle2D.color p |})
    /\ (forall p : Particle2D.t,
          drawCalls p =
          [Canvas.createRadialGradient
             (JS.double_tilde (Particle2D.x p) + JS.sar (Particle2D.mass p) 1)
             (JS.double_tilde (Particle2D.y p) + JS.sar (Particle2D.mass p) 1)
             (JS.sar (Particle2D.mass p) 1 * Particle2D.sharpness p)
             (JS.double_tilde (Particle2D.x p) + JS.sar (Particle2D.mass p) 1)
             (JS.double_tilde (Particle2D.y p) + JS.sar (Particle2D.mass p) 1)
             (JS.sar (Particle2D.mass p) 1);
           Canvas.addColorStop 0
             (Canvas.rgba (Particle2D.RED (Particle2D.color p))
                (Particle2D.GREEN (Particle2D.color p))
                (Particle2D.BLUE (Particle2D.color p))
                (Particle2D.alpha p));
           Canvas.addColorStop 1 (Canvas.rgba 50 0 30 0);
           Canvas.set_fillStyle;
           Canvas.fillRect (JS.double_tilde (Particle2D.x p))
             (JS.double_tilde (Particle2D.y p)) (Particle2D.mass p)
             (Particle2D.mass p)])
    /\ (forall p : Particle2D.t,
          shouldRemove s p = true <->
          Particle2D.alpha p <= 0.1
          \/ Particle2D.y p < 0
          \/ Particle2D.x p < 0
          \/ Particle2D.y p > Canvas.height (canvas s)
          \/ Particle2D.x p > Canvas.width (canvas s)).
Proof.
  destruct (drawNextFrame_fields s time) as (s' & Hrun & Hps & Hctx & _).
  exists s'. split; [assumption|]. split; [assumption|].
  split; [rewrite drawCalls_fillRects, length_map; reflexivity|].
  split; [assumption|].
  split; [intros p; reflexivity|].
  split; [intros p; reflexivity|].
  intros p. apply shouldRemove_true.
Qed.

(** C2. In a call of [drawNextFrame] the particles that stay are the
    updated particles that fail the removal test, and a particle meets the
    test exactly when its alpha is at most 0.1 or its position is strictly
    outside [0, width] x [0, height]; a particle on the edge of the
    surface, with alpha above 0.1, stays. *)
Theorem removed_iff_faded_or_outside (s : t) (time : R) :
  exists s' : t,
    drawNextFrame s time = Some s'
    /\ particles s' =
         List.filter (fun p => negb (shouldRemove s p))
           (map (applyForces s (frameMultipleAt s time)) (particles s))
    /\ (forall p : Particle2D.t,
          shouldRemove s p = true <->
          Particle2D.alpha p <= 0.1
          \/ ~ (0 <= Particle2D.x p <= Canvas.width (canvas s)
                /\ 0 <= Particle2D.y p <= Canvas.height (canvas s)))
    /\ (forall p : Particle2D.t,
          0.1 < Particle2D.alpha p ->
          0 <= Particle2D.x p <= Canvas.width (canvas s) ->
          0 <= Particle2D.y p <= Canvas.height (canvas s) ->
          shouldRemove s p = false).
Proof.
  destruct (drawNextFrame_fields s time) as (s' & Hrun & Hps & _).
  exists s'. split; [assumption|]. split; [assumption|]. split.
  - intros p. rewrite shouldRemove_true. split.
    + intros [H|[H|[H|[H|H]]]]; [left; assumption|right; lra..].
    + intros [H|H]; [left; assumption|].
      destruct (Rlt_dec (Particle2D.y p) 0); [tauto|].
      destruct (Rlt_dec (Particle2D.x p) 0); [tauto|].
      destruct (Rlt_dec (Canvas.height (canvas s)) (Particle2D.y p));
        [tauto|].
      destruct (Rlt_dec (Canvas.width (canvas s)) (Particle2D.x p));
        [tauto|].
      exfalso. apply H. lra.
  - intros p Ha Hx Hy. apply not_true_is_false. rewrite shouldRemove_true.
    intros [H|[H|[H|[H|H]]]]; lra.
Qed.

(** ** The dirty region *)

Lemma updateDirtyRegion_grows (d : DirtyRegion) (p : Particle2D.t) :
  grows d (updateDirtyRegion d p) /\ inside (updateDirtyRegion d p) 0 p.
Proof.
  destruct d as [x0 x1 y0 y1].
  unfold grows, inside, updateDirtyRegion, JS.gtb, JS.ltb.
  cbn [xMin xMax yMin yMax set_xMin set_xMax set_yMin set_yMax].
  repeat match goal with
         | |- context [Rlt_dec ?a ?b] =>
             destruct (Rlt_dec a b);
             cbn [xMin xMax yMin yMax set_xMin set_xMax set_yMin set_yMax]
               in *
         end; lra.
Qed.

Lemma grows_inside (d d' : DirtyRegion) (p : Particle2D.t) :
  grows d d' -> inside d 0 p -> inside d' 0 p.
Proof. unfold grows, inside. lra. Qed.

Lemma fold_updateDirtyRegion (ps : list Particle2D.t) :
  forall d : DirtyRegion,
    grows d (fold_left updateDirtyRegion ps d)
    /\ Forall (inside (fold_left updateDirtyRegion ps d) 0) ps.
Proof.
  induction ps as [|p ps IH]; intros d; cbn [fold_left].
  - split; [unfold grows; lra|constructor].
  - destruct (IH (updateDirtyRegion d p)) as [Hg Hin].
    destruct (updateDirtyRegion_grows d p) as [Hg1 Hin1].
    split.
    + unfold grows in *. lra.
    + constructor; [|assumption].
      apply (grows_inside _ _ _ Hg Hin1).
Qed.

(** C6. With [autoClear] set (and a maximal mass that is not negative),
    after a call of [drawNextFrame] the dirty region holds the position of
    every particle still in the live set, already without the margin, and
    so also once grown by the margin [PARTICLE_MASS_MAX * 2] of the next
    clear. *)
Theorem dirtyRegion_bounds_live_particles (s : t) (time : R) :
  autoClear s = true ->
  0 <= PARTICLE_MASS_MAX s ->
  exists s' : t,
    drawNextFrame s time = Some s'
    /\ Forall (inside (dirtyRegion s') 0) (particles s')
    /\ Forall (inside (dirtyRegion s') (PARTICLE_MASS_MAX s' * 2))
         (particles s').
Proof.
  intros Hac Hmass.
  destruct (drawNextFrame_fields s time)
    as (s' & Hrun & Hps & _ & Hd & _ & Hs).
  exists s'. split; [assumption|].
  rewrite Hac in Hd. rewrite Hps, Hd.
  destruct (fold_updateDirtyRegion
              (survivors s (frameMultipleAt s time) (particles s))
              (resetRegion s)) as [_ Hin].
  split; [assumption|].
  destruct Hs as (_ & _ & _ & _ & ->).
  eapply Forall_impl; [exact Hin|].
  intros p. unfold inside. lra.
Qed.

(** ** A particle removed in a frame *)

Lemma survivors_app (s : t) (m : R) (l1 l2 : list Particle2D.t) :
  survivors s m (l1 ++ l2) = survivors s m l1 ++ survivors s m l2.
Proof.
  unfold survivors, updated. rewrite map_app. apply List.filter_app.
Qed.

Lemma survivors_delete (s : t) (m : R) (ps : list Particle2D.t) (i : nat)
      (p : Particle2D.t) :
  ps !! i = Some p ->
  shouldRemove s (applyForces s m p) = true ->
  survivors s m (delete i ps) = survivors s m ps.
Proof.
  intros Hi Hrm.
  rewrite <- (take_drop_middle ps i p Hi) at 2.
  rewrite delete_take_drop, !survivors_app, survivors_cons, Hrm.
  reflexivity.
Qed.

(** C10. A particle that meets the removal test in a call of
    [drawNextFrame] (alpha at most 0.1 or a position out of the canvas,
    after its update) is still drawn in that call, once, at its place in
    the order of the particles (the draw comes before the test): the calls
    of the frame are those of the same frame on a system that never held
    the particle, with the five draw calls of the updated particle, its
    [fillRect] among them, put in at its place. The particle is absent from
    the live set afterwards, and the live set and the dirty region the
    call leaves are those of the frame without it: its last position is
    not added to the dirty region. *)
Theorem removed_particle_is_drawn_then_dropped
        (s : t) (time : R) (i : nat) (p : Particle2D.t) :
  particles s !! i = Some p ->
  Particle2D.alpha (applyForces s (frameMultipleAt s time) p) <= 0.1
  \/ Particle2D.y (applyForces s (frameMultipleAt s time) p) < 0
  \/ Particle2D.x (applyForces s (frameMultipleAt s time) p) < 0
  \/ Particle2D.y (applyForces s (frameMultipleAt s time) p)
     > Canvas.height (canvas s)
  \/ Particle2D.x (applyForces s (frameMultipleAt s time) p)
     > Canvas.width (canvas s) ->
  exists (s' s'' : t) (p' : Particle2D.t),
    drawNextFrame s time = Some s'
    /\ drawNextFrame (set_particles s (delete i (particles s))) time
       = Some s''
    /\ p' =
       {| Particle2D.x :=
            Particle2D.x p
            + Particle2D.velocityX p * Particle2D.mass p
              * frameMultipleAt s time;
          Particle2D.y :=
            Particle2D.y p
            + Particle2D.velocityY p * Particle2D.mass p
              * frameMultipleAt s time;
          Particle2D.velocityX :=
            Particle2D.velocityX p
            * JS.Math_pow (1 - UNIVERSE_FRICTION s) (frameMultipleAt s time);
          Particle2D.velocityY :=
            Particle2D.velocityY p
            * JS.Math_pow (1 - UNIVERSE_FRICTION s) (frameMultipleAt s time)
            + UNIVERSE_GRAVITY s * frameMultipleAt s time;
          Particle2D.mass := Particle2D.mass p;
          Particle2D.alpha :=
            Particle2D.alpha p
            * JS.Math_pow (Particle2D.burnRate p) (frameMultipleAt s time);
          Particle2D.burnRate := Particle2D.burnRate p;
          Particle2D.sharpness := Particle2D.sharpness p;
          Particle2D.color := Particle2D.color p |}
    /\ drawCalls p' =
       [Canvas.createRadialGradient
          (JS.double_tilde (Particle2D.x p') + JS.sar (Particle2D.mass p') 1)
          (JS.double_tilde (Particle2D.y p') + JS.sar (Particle2D.mass p') 1)
          (JS.sar (Particle2D.mass p') 1 * Particle2D.sharpness p')
          (JS.double_tilde (Particle2D.x p') + JS.sar (Particle2D.mass p') 1)
          (JS.double_tilde (Particle2D.y p') + JS.sar (Particle2D.mass p') 1)
          (JS.sar (Particle2D.mass p') 1);
        Canvas.addColorStop 0
          (Canvas.rgba (Particle2D.RED (Particle2D.color p'))
             (Particle2D.GREEN (Particle2D.color p'))
             (Particle2D.BLUE (Particle2D.color p'))
             (Particle2D.alpha p'));
        Canvas.addColorStop 1 (Canvas.rgba 50 0 30 0);
        Canvas.set_fillStyle;
        Canvas.fillRect (JS.double_tilde (Particle2D.x p'))
          (JS.double_tilde (Particle2D.y p')) (Particle2D.mass p')
          (Particle2D.mass p')]
    /\ (exists before after : list Canvas.Call,
          ctx s' = ctx s ++ clearCalls s ++ before ++ drawCalls p' ++ after
          /\ ctx s'' = ctx s ++ clearCalls s ++ before ++ after
          /\ length (List.filter isFillRect before) = i
          /\ length (List.filter isFillRect (before ++ drawCalls p' ++ after))
             = length (particles s))
    /\ particles s' =
       List.filter (fun q => negb (shouldRemove s q))
         (map (applyForces s (frameMultipleAt s time))
              (delete i (particles s)))
    /\ particles s' = particles s''
    /\ dirtyRegion s' = dirtyRegion s''.
Proof.
  intros Hi Hcond.
  assert (Hrm : shouldRemove s (applyForces s (frameMultipleAt s time) p)
                = true) by (apply shouldRemove_true; exact Hcond).
  set (s2 := set_particles s (delete i (particles s))).
  destruct (drawNextFrame_fields s time)
    as (s' & Hrun & Hps & Hctx & Hd & _).
  destruct (drawNextFrame_fields s2 time)
    as (s'' & Hrun2 & Hps2 & Hctx2 & Hd2 & _).
  assert (Hs : sameSettings s2 s) by repeat split.
  change (frameMultipleAt s2 time) with (frameMultipleAt s time) in *.
  change (particles s2) with (delete i (particles s)) in *.
  change (autoClear s2) with (autoClear s) in Hd2.
  change (resetRegion s2) with (resetRegion s) in Hd2.
  change (dirtyRegion s2) with (dirtyRegion s) in Hd2.
  change (ctx s2) with (ctx s) in Hctx2.
  change (clearCalls s2) with (clearCalls s) in Hctx2.
  rewrite (updated_settings _ _ _ _ Hs) in Hctx2.
  pose proof (survivors_delete s _ _ i p Hi Hrm) as Hdel.
  rewrite (survivors_settings _ _ _ _ Hs), Hdel in Hps2, Hd2.
  exists s', s'', (applyForces s (frameMultipleAt s time) p).
  split; [exact Hrun|]. split; [exact Hrun2|].
  split; [reflexivity|]. split; [reflexivity|].
  split; [|split; [|split; congruence]].
  - exists (concat (map drawCalls
                      (updated s (frameMultipleAt s time)
                         (take i (particles s))))),
           (concat (map drawCalls
                      (updated s (frameMultipleAt s time)
                         (drop (S i) (particles s))))).
    assert (Hlen : length (take i (particles s)) = i).
    { apply length_take_le. apply lookup_lt_Some in Hi. lia. }
    repeat split.
    + rewrite Hctx. unfold updated.
      rewrite <- (take_drop_middle (particles s) i p Hi) at 1.
      rewrite !map_app, concat_app. cbn [map concat]. reflexivity.
    + rewrite Hctx2, delete_take_drop. unfold updated.
      rewrite !map_app, concat_app. reflexivity.
    + unfold updated. rewrite drawCalls_fillRects, length_map. exact Hlen.
    + rewrite !List.filter_app, !length_app.
      unfold updated. rewrite !drawCalls_fillRects, !length_map.
      rewrite <- (take_drop_middle (particles s) i p Hi) at 3.
      rewrite length_app. cbn. lia.
  - rewrite Hps, <- Hdel. reflexivity.
Qed.

(** ** The physics step *)

Lemma applyForces_closed (s : t) (m : R) (p : Particle2D.t) :
  applyForces s m p =
  {| Particle2D.x :=
       Particle2D.x p + Particle2D.velocityX p * Particle2D.mass p * m;
     Particle2D.y :=
       Particle2D.y p + Particle2D.velocityY p * Particle2D.mass p * m;
     Particle2D.velocityX :=
       Particle2D.velocityX p * JS.Math_pow (1 - UNIVERSE_FRICTION s) m;
     Particle2D.velocityY :=
       Particle2D.velocityY p * JS.Math_pow (1 - UNIVERSE_FRICTION s) m
       + UNIVERSE_GRAVITY s * m;
     Particle2D.mass := Particle2D.mass p;
     Particle2D.alpha :=
       Particle2D.alpha p * JS.Math_pow (Particle2D.burnRate p) m;
     Particle2D.burnRate := Particle2D.burnRate p;
     Particle2D.sharpness := Particle2D.sharpness p;
     Particle2D.color := Particle2D.color p |}.
Proof. reflexivity. Qed.

(** C5. One physics step moves the position by velocity * mass * m with
    the velocity the particle had before the step, then multiplies both
    velocity components by (1 - friction)^m, then adds gravity * m to
    velocityY, then multiplies alpha by burnRate^m. The displacement of
    the step does not depend on gravity or friction; the one of the next
    step is made with the velocity they produced. *)
Theorem applyForces_order (s : t) (m : R) (p : Particle2D.t) :
  applyForces s m p =
  {| Particle2D.x :=
       Particle2D.x p + Particle2D.velocityX p * Particle2D.mass p * m;
     Particle2D.y :=
       Particle2D.y p + Particle2D.velocityY p * Particle2D.mass p * m;
     Particle2D.velocityX :=
       Particle2D.velocityX p * JS.Math_pow (1 - UNIVERSE_FRICTION s) m;
     Particle2D.velocityY :=
       Particle2D.velocityY p * JS.Math_pow (1 - UNIVERSE_FRICTION s) m
       + UNIVERSE_GRAVITY s * m;
     Particle2D.mass := Particle2D.mass p;
     Particle2D.alpha :=
       Particle2D.alpha p * JS.Math_pow (Particle2D.burnRate p) m;
     Particle2D.burnRate := Particle2D.burnRate p;
     Particle2D.sharpness := Particle2D.sharpness p;
     Particle2D.color := Particle2D.color p |}
  /\ (forall s2 : t,
        Particle2D.x (applyForces s2 m p) = Particle2D.x (applyForces s m p)
        /\ Particle2D.y (applyForces s2 m p)
           = Particle2D.y (applyForces s m p))
  /\ (forall m2 : R,
        Particle2D.x (applyForces s m2 (applyForces s m p))
        = Particle2D.x (applyForces s m p)
          + Particle2D.velocityX p * JS.Math_pow (1 - UNIVERSE_FRICTION s) m
            * Particle2D.mass p * m2
        /\ Particle2D.y (applyForces s m2 (applyForces s m p))
           = Particle2D.y (applyForces s m p)
             + (Particle2D.velocityY p
                * JS.Math_pow (1 - UNIVERSE_FRICTION s) m
                + UNIVERSE_GRAVITY s * m)
               * Particle2D.mass p * m2).
Proof.
  split; [apply applyForces_closed|]. split.
  - intros s2. rewrite !applyForces_closed. split; reflexivity.
  - intros m2. rewrite !applyForces_closed. split; reflexivity.
Qed.

(** C8, in exact arithmetic. The physics step of [src/unnamed/part_000]
    on a particle in units per second, with a gravity 1000 times that of
    [src/particles.js] and the same friction, is the step of
    [src/particles.js] on the particle in units per millisecond: same
    position and alpha, velocities 1000 times larger. In the doubles of
    the code the positions can differ by a rounding, see
    [perSecond_position_rounds_differently]. *)
Theorem applyForces_perSecond
        (s : t) (s' : ParticleSystemPerSecond.t) (m : R)
        (p : Particle2D.t) :
  ParticleSystemPerSecond.UNIVERSE_GRAVITY s' = 1000 * UNIVERSE_GRAVITY s ->
  ParticleSystemPerSecond.UNIVERSE_FRICTION s' = UNIVERSE_FRICTION s ->
  ParticleSystemPerSecond.applyForces s' m (perSecond p)
  = perSecond (applyForces s m p).
Proof.
  intros Hg Hf. rewrite applyForces_closed.
  unfold ParticleSystemPerSecond.applyForces, perSecond.
  destruct p as [px py vx vy ms al br sh co].
  cbv [Particle2D.set_x Particle2D.set_y Particle2D.set_velocityX
       Particle2D.set_velocityY Particle2D.set_alpha
       Particle2D.x Particle2D.y Particle2D.velocityX Particle2D.velocityY
       Particle2D.mass Particle2D.alpha Particle2D.burnRate
       Particle2D.sharpness Particle2D.color].
  rewrite Hg, Hf. f_equal; lra.
Qed.

(** Decimal literals denote the nearest double, as in JavaScript. *)
#[local] Set Warnings "-inexact-float".

(** C8 fails as stated in the doubles of the code: for a particle at
    x = 100 with velocityX 0.051 per millisecond and mass 33, in a frame
    of multiple 1, [src/particles.js] moves it to 101.68299999999999 and
    [src/unnamed/part_000], on the velocity 1000 * 0.051 = 51 per second,
    to the next double, 101.68300000000001. *)
Lemma perSecond_position_rounds_differently :
  Double.integrate 100 0.051 33 1 = 101.68299999999999%float
  /\ (1000 * 0.051)%float = 51%float
  /\ Double.integratePerSecond 100 (1000 * 0.051) 33 1
     = 101.68300000000001%float
  /\ PrimFloat.eqb (Double.integrate 100 0.051 33 1)
       (Double.integratePerSecond 100 (1000 * 0.051) 33 1)
     = false.
Proof. vm_compute. repeat split. Qed.

(** ** Powers and the frame delay multiple *)

Lemma Math_pow_Rpower (b e : R) : 0 < b -> JS.Math_pow b e = Rpower b e.
Proof.
  intros Hb. unfold JS.Math_pow.
  destruct (Req_dec_T e 0) as [->|_].
  - symmetry. apply Rpower_O, Hb.
  - destruct (Rlt_dec 0 b); [reflexivity|contradiction].
Qed.

Lemma Math_pow_plus (b e1 e2 : R) :
  0 < b -> JS.Math_pow b (e1 + e2) = JS.Math_pow b e1 * JS.Math_pow b e2.
Proof.
  intros Hb. rewrite !Math_pow_Rpower by assumption. apply Rpower_plus.
Qed.

Lemma Math_pow_range (b e : R) :
  0 < b <= 1 -> 0 <= e -> 0 < JS.Math_pow b e <= 1.
Proof.
  intros [Hb0 Hb1] He. rewrite Math_pow_Rpower by assumption.
  unfold Rpower. split; [apply exp_pos|].
  assert (Hln : ln b <= 0).
  { destruct Hb1 as [Hlt| ->]; [|rewrite ln_1; lra].
    left. rewrite <- ln_1. apply ln_increasing; assumption. }
  assert (Hprod : e * ln b <= 0) by nra.
  destruct Hprod as [Hlt|Heq].
  - left. rewrite <- exp_0. apply exp_increasing, Hlt.
  - rewrite Heq, exp_0. lra.
Qed.

Lemma frameMultiple_pos (elapsed : R) :
  0 < elapsed -> frameMultiple elapsed = elapsed / (1000 / 60).
Proof.
  intros H. unfold frameMultiple, JS.strict_eqb.
  destruct (Req_dec_T elapsed 0); [lra|reflexivity].
Qed.

Lemma frameMultiple_gt_0 (elapsed : R) :
  0 <= elapsed -> 0 < frameMultiple elapsed.
Proof.
  intros H. unfold frameMultiple, JS.strict_eqb.
  destruct (Req_dec_T elapsed 0); [lra|].
  apply Rdiv_lt_0_compat; lra.
Qed.

(** ** Alpha fades *)

Lemma applyForces_alpha (s : t) (m : R) (p : Particle2D.t) :
  0 < Particle2D.burnRate p <= 1 ->
  0 < m ->
  0 <= Particle2D.alpha p ->
  0 <= Particle2D.alpha (applyForces s m p) <= Particle2D.alpha p.
Proof.
  intros Hb Hm Ha. rewrite applyForces_closed. cbn [Particle2D.alpha].
  pose proof (Math_pow_range (Particle2D.burnRate p) m Hb (Rlt_le _ _ Hm)).
  nra.
Qed.

(** C4. For a particle with burnRate in (0, 1] and an alpha that is not
    negative (the data model has alpha in [0, 1]: [spawn] draws it with
    [Math.random()], see [spawnBody_alpha], and the step keeps it from
    going negative), a physics step of multiple m > 0 leaves an alpha at
    most the one before, and so does every sequence of such steps; the
    multiple of a frame is positive whenever the elapsed time is not
    negative. *)
Theorem alpha_never_increases (s : t) (m : R) (p : Particle2D.t) :
  0 < Particle2D.burnRate p <= 1 ->
  0 <= Particle2D.alpha p ->
  0 < m ->
  Particle2D.alpha (applyForces s m p) <= Particle2D.alpha p
  /\ 0 <= Particle2D.alpha (applyForces s m p)
  /\ (forall ms : list R,
        Forall (fun k => 0 < k) ms ->
        Particle2D.alpha (applyForcesMany s ms p) <= Particle2D.alpha p)
  /\ (forall elapsed : R, 0 <= elapsed -> 0 < frameMultiple elapsed).
Proof.
  intros Hb Ha Hm.
  split; [apply applyForces_alpha; assumption|].
  split; [apply applyForces_alpha; assumption|]. split.
  - intros ms Hms. clear m Hm.
    enough (0 <= Particle2D.alpha (applyForcesMany s ms p)
            <= Particle2D.alpha p) by tauto.
    revert p Hb Ha.
    induction Hms as [|k ms Hk Hms IH]; intros p Hb Ha.
    + cbn. lra.
    + cbn [applyForcesMany fold_left].
      pose proof (applyForces_alpha s k p Hb Hk Ha) as Hstep.
      specialize (IH (applyForces s k p) Hb (proj1 Hstep)).
      unfold applyForcesMany in IH. lra.
  - apply frameMultiple_gt_0.
Qed.

(** ** Splitting a frame in two *)

(** C1, as the code has it. Two physics steps for the elapsed times a and
    b (both positive, friction below 1, burnRate positive) against one
    step for a + b: the frame multiples add up, velocityX and alpha come
    out the same, and the position and velocityY differ by the terms the
    one-step integration leaves out. *)
Theorem split_frame_velocityX_alpha
        (s : t) (p : Particle2D.t) (a b : R) :
  0 < a ->
  0 < b ->
  UNIVERSE_FRICTION s < 1 ->
  0 < Particle2D.burnRate p ->
  let ma := frameMultiple a in
  let mb := frameMultiple b in
  let f := JS.Math_pow (1 - UNIVERSE_FRICTION s) in
  let two := applyForces s mb (applyForces s ma p) in
  let one := applyForces s (frameMultiple (a + b)) p in
  frameMultiple (a + b) = ma + mb
  /\ Particle2D.velocityX two = Particle2D.velocityX one
  /\ Particle2D.alpha two = Particle2D.alpha one
  /\ Particle2D.x one - Particle2D.x two
     = Particle2D.velocityX p * Particle2D.mass p * mb * (1 - f ma)
  /\ Particle2D.y one - Particle2D.y two
     = Particle2D.mass p * mb
       * (Particle2D.velocityY p * (1 - f ma) - UNIVERSE_GRAVITY s * ma)
  /\ Particle2D.velocityY one - Particle2D.velocityY two
     = UNIVERSE_GRAVITY s * ma * (1 - f mb).
Proof.
  intros Ha Hb Hf Hbr. cbv zeta.
  assert (Hm : frameMultiple (a + b) = frameMultiple a + frameMultiple b).
  { rewrite !frameMultiple_pos by lra. lra. }
  rewrite Hm, !applyForces_closed.
  cbn [Particle2D.x Particle2D.y Particle2D.velocityX Particle2D.velocityY
       Particle2D.mass Particle2D.alpha Particle2D.burnRate].
  rewrite !Math_pow_plus by lra.
  repeat split; ring.
Qed.

(** C1 fails as stated: with the settings of the constructor, a particle
    100 ms older after two frames of 50 ms is at x = 111.647152, after one
    frame of 100 ms at x = 112. *)
Lemma split_frame_changes_position :
  Particle2D.x
    (applyForces system200 (frameMultiple 50)
       (applyForces system200 (frameMultiple 50) sampleParticle))
  = 111.647152
  /\ Particle2D.x
       (applyForces system200 (frameMultiple (50 + 50)) sampleParticle)
     = 112.
Proof.
  rewrite !frameMultiple_pos by lra.
  rewrite !applyForces_closed.
  cbn [Particle2D.x Particle2D.velocityX Particle2D.mass sampleParticle
       system200 new UNIVERSE_FRICTION].
  replace (50 / (1000 / 60)) with (INR 3) by (cbn; lra).
  rewrite Math_pow_Rpower, Rpower_pow by lra.
  split; cbn; lra.
Qed.

(** ** spawn *)

Lemma spawn_step (s : t) (rnd : JS.Random) (n : Z) :
  spawn s rnd n =
  if Z_gt_dec n 0
  then spawn (fst (spawnBody s rnd)) (snd (spawnBody s rnd)) (n - 1)
  else (s, rnd).
Proof.
  rewrite spawn_equation_1.
  destruct (Z_gt_dec n 0); reflexivity.
Qed.

(** One turn pushes one particle, placed at the spawn position. *)
Lemma spawnBody_spec (s : t) (rnd : JS.Random) :
  exists q : Particle2D.t,
    fst (spawnBody s rnd) = set_particles s (particles s ++ [q])
    /\ Particle2D.x q = x s
    /\ Particle2D.y q = y s.
Proof.
  unfold spawnBody. cbv [JS.Math_random]. cbv beta iota zeta.
  eexists. split; [reflexivity|]. split; reflexivity.
Qed.

(** Its alpha is the fourth random draw of the turn, its burn rate the
    one of the system: with draws in [0, 1) no particle starts with a
    negative alpha. *)
Lemma spawnBody_alpha (s : t) (rnd : JS.Random) :
  exists q : Particle2D.t,
    particles (fst (spawnBody s rnd)) = particles s ++ [q]
    /\ Particle2D.alpha q = rnd 3%nat
    /\ Particle2D.burnRate q = PARTICLE_BURN_RATE s.
Proof.
  unfold spawnBody. cbv [JS.Math_random]. cbv beta iota zeta.
  eexists. split; [reflexivity|]. split; reflexivity.
Qed.

Lemma spawn_spec (k : nat) :
  forall (s : t) (rnd : JS.Random) (n : Z),
    Z.to_nat n = k ->
    exists new : list Particle2D.t,
      particles (fst (spawn s rnd n)) = particles s ++ new
      /\ length new = k
      /\ Forall (fun q => Particle2D.x q = x s /\ Particle2D.y q = y s) new
      /\ x (fst (spawn s rnd n)) = x s
      /\ y (fst (spawn s rnd n)) = y s.
Proof.
  induction k as [|k IH]; intros s rnd n Hn; rewrite spawn_step.
  - destruct (Z_gt_dec n 0); [lia|].
    exists []. cbn [fst]. rewrite app_nil_r.
    repeat split. constructor.
  - destruct (Z_gt_dec n 0); [|lia].
    destruct (spawnBody_spec s rnd) as (q & Hq & Hx & Hy).
    destruct (IH (fst (spawnBody s rnd)) (snd (spawnBody s rnd)) (n - 1)%Z)
      as (new & Hps & Hlen & Hall & Hx' & Hy'); [lia|].
    assert (Hp1 : particles (fst (spawnBody s rnd)) = particles s ++ [q])
      by (rewrite Hq; reflexivity).
    assert (Hx1 : x (fst (spawnBody s rnd)) = x s)
      by (rewrite Hq; reflexivity).
    assert (Hy1 : y (fst (spawnBody s rnd)) = y s)
      by (rewrite Hq; reflexivity).
    rewrite Hp1 in Hps. rewrite Hx1, Hy1 in Hall.
    rewrite Hx1 in Hx'. rewrite Hy1 in Hy'.
    exists (q :: new). rewrite Hps, <- app_assoc.
    repeat split; try assumption.
    + cbn. lia.
    + constructor; [split; assumption|assumption].
Qed.

(** C3. For an integer n >= 0, [spawn] pushes exactly n new particles on
    the live set (none for n = 0), each at the spawn position of the
    system, after the particles already there; for n < 0 it changes
    nothing. *)
Theorem spawn_appends_n_at_origin (s : t) (rnd : JS.Random) (n : Z) :
  ((0 <= n)%Z ->
   exists new : list Particle2D.t,
     particles (fst (spawn s rnd n)) = particles s ++ new
     /\ length new = Z.to_nat n
     /\ length (particles (fst (spawn s rnd n)))
        = (length (particles s) + Z.to_nat n)%nat
     /\ Forall (fun q => Particle2D.x q = x s /\ Particle2D.y q = y s) new)
  /\ ((n < 0)%Z -> spawn s rnd n = (s, rnd)).
Proof.
  split.
  - intros _.
    destruct (spawn_spec (Z.to_nat n) s rnd n eq_refl)
      as (new & Hps & Hlen & Hall & _).
    exists new. repeat split; try assumption.
    rewrite Hps, length_app, Hlen. reflexivity.
  - intros Hn. rewrite spawn_step.
    destruct (Z_gt_dec n 0); [lia|reflexivity].
Qed.

(** ** Integer conversions *)

Section ToInt32.

Lemma trunc_IZR (z : Z) : JS.trunc (IZR z) = z.
Proof.
  unfold JS.trunc. destruct (Rle_dec 0 (IZR z)).
  - apply ZfloorZ.
  - rewrite <- opp_IZR, ZfloorZ. lia.
Qed.

Lemma wrap32_range (z : Z) : (- 2 ^ 31 <= JS.wrap32 z < 2 ^ 31)%Z.
Proof.
  unfold JS.wrap32.
  pose proof (Z.mod_pos_bound (z + 2 ^ 31) (2 ^ 32) eq_refl). lia.
Qed.

Lemma wrap32_small (z : Z) :
  (- 2 ^ 31 <= z < 2 ^ 31)%Z -> JS.wrap32 z = z.
Proof.
  intros H. unfold JS.wrap32. rewrite Z.mod_small; lia.
Qed.

Lemma ToInt32_IZR (z : Z) :
  (- 2 ^ 31 <= z < 2 ^ 31)%Z -> JS.ToInt32 (IZR z) = z.
Proof.
  intros H. unfold JS.ToInt32. rewrite trunc_IZR. apply wrap32_small, H.
Qed.

(** [~~a] is ToInt32 of [a]. *)
Lemma double_tilde_ToInt32 (a : R) :
  JS.double_tilde a = IZR (JS.ToInt32 a).
Proof.
  unfold JS.double_tilde, JS.bitnot.
  pose proof (wrap32_range (JS.trunc a)) as Hr.
  fold (JS.ToInt32 a) in Hr.
  rewrite ToInt32_IZR by (unfold Z.lnot; lia).
  rewrite Z.lnot_involutive. reflexivity.
Qed.

(** [size >> 1] for an even integer size is half of it. *)
Lemma sar_even (k : Z) :
  (0 <= k < 2 ^ 30)%Z -> JS.sar (IZR (2 * k)) 1 = IZR (2 * k) / 2.
Proof.
  intros H. unfold JS.sar. rewrite ToInt32_IZR by lia.
  rewrite Z.shiftr_div_pow2 by lia.
  replace (2 * k / 2 ^ 1)%Z with k
    by (change (2 ^ 1)%Z with 2%Z; rewrite Z.mul_comm, Z.div_mul; lia).
  rewrite mult_IZR. lra.
Qed.

End ToInt32.

(** ** draw *)

(** C7, as the code has it. [draw] makes one radial gradient and fills one
    rectangle with it. With X and Y the position truncated to integers and
    H the integer half [mass >> 1], the gradient is centred at (X + H,
    Y + H), its outer radius is H and its inner radius H * sharpness: 0 for
    sharpness 0, the outer radius for sharpness 1. H is half the rendered
    size, and the centre the centre of the filled square, when the mass is
    an even integer. *)
Theorem draw_gradient (p : Particle2D.t) (context : Canvas.Context) :
  let H := JS.sar (Particle2D.mass p) 1 in
  let X := IZR (JS.ToInt32 (Particle2D.x p)) in
  let Y := IZR (JS.ToInt32 (Particle2D.y p)) in
  Particle2D.draw p context =
  context
  ++ [Canvas.createRadialGradient (X + H) (Y + H)
        (H * Particle2D.sharpness p) (X + H) (Y + H) H;
      Canvas.addColorStop 0 (Particle2D.getColor p);
      Canvas.addColorStop 1 (Canvas.rgba 50 0 30 0);
      Canvas.set_fillStyle;
      Canvas.fillRect X Y (Particle2D.mass p) (Particle2D.mass p)]
  /\ (Particle2D.sharpness p = 0 -> H * Particle2D.sharpness p = 0)
  /\ (Particle2D.sharpness p = 1 -> H * Particle2D.sharpness p = H)
  /\ (forall k : Z,
        (0 <= k < 2 ^ 30)%Z ->
        Particle2D.mass p = IZR (2 * k) ->
        H = Particle2D.mass p / 2).
Proof.
  cbv zeta. split; [|split; [|split]].
  - rewrite draw_app. unfold drawCalls, Particle2D.draw. cbv zeta.
    rewrite !double_tilde_ToInt32. reflexivity.
  - intros ->. lra.
  - intros ->. lra.
  - intros k Hk ->. apply sar_even, Hk.
Qed.

(** C7 fails as stated: a particle of mass 45 is filled as a square of
    side 45 and gets a gradient of outer radius 22, not 22.5, around a
    centre 22 from the corner of the square. *)
Lemma draw_odd_mass_radius :
  drawCalls oddParticle =
  [Canvas.createRadialGradient 122 122 (22 * 0.2) 122 122 22;
   Canvas.addColorStop 0 (Canvas.rgba 255 155 0 0.9);
   Canvas.addColorStop 1 (Canvas.rgba 50 0 30 0);
   Canvas.set_fillStyle;
   Canvas.fillRect 100 100 45 45]
  /\ 22 <> Particle2D.mass oddParticle / 2.
Proof.
  split.
  - unfold drawCalls, Particle2D.draw. cbv zeta.
    rewrite !double_tilde_ToInt32.
    cbn [oddParticle sampleParticle Particle2D.set_mass Particle2D.mass
         Particle2D.x Particle2D.y Particle2D.sharpness Particle2D.getColor
         Particle2D.color Particle2D.alpha system200 new SPAWN_COLOR
         Particle2D.RED Particle2D.GREEN Particle2D.BLUE app].
    unfold JS.sar. rewrite !ToInt32_IZR by lia.
    change (Z.shiftr 45 1) with 22%Z.
    repeat f_equal; lra.
  - cbn. lra.
Qed.

(** ** The statements at the sample data *)

Lemma frameMultipleAt_sample : frameMultipleAt sampleSystem 1050 = INR 3.
Proof.
  unfold frameMultipleAt, timeSinceLastFrame, JS.gtb, JS.ltb.
  cbn [sampleSystem lastFrameTime set_lastFrameTime].
  destruct (Rlt_dec 0 1000); [|lra].
  rewrite frameMultiple_pos by lra. cbn. lra.
Qed.

(** A frame 50 ms after the last one, on the sample system: the particle
    in the middle moves to (106, 88) and stays, the one beyond the edge is
    dropped. *)
Example sampleSystem_frame :
  exists s' : t,
    drawNextFrame sampleSystem 1050 = Some s'
    /\ particles s' = [applyForces sampleSystem (INR 3) sampleParticle]
    /\ Particle2D.x (applyForces sampleSystem (INR 3) sampleParticle) = 106
    /\ Particle2D.y (applyForces sampleSystem (INR 3) sampleParticle) = 88.
Proof.
  destruct (drawNextFrame_fields sampleSystem 1050) as (s' & Hrun & Hps & _).
  exists s'. split; [assumption|].
  rewrite frameMultipleAt_sample in Hps.
  assert (Hkeep : shouldRemove sampleSystem
                    (applyForces sampleSystem (INR 3) sampleParticle)
                  = false).
  { apply not_true_is_false. rewrite shouldRemove_true.
    rewrite applyForces_closed.
    cbn [Particle2D.alpha Particle2D.x Particle2D.y sampleParticle
         Particle2D.velocityX Particle2D.velocityY Particle2D.mass
         Particle2D.burnRate].
    rewrite Math_pow_Rpower, Rpower_pow by lra.
    cbn. lra. }
  assert (Hdrop : shouldRemove sampleSystem
                    (applyForces sampleSystem (INR 3) outsideParticle)
                  = true).
  { apply shouldRemove_true. do 4 right.
    rewrite applyForces_closed. cbn. lra. }
  change (particles sampleSystem) with [sampleParticle; outsideParticle]
    in Hps.
  rewrite !survivors_cons, Hkeep, Hdrop in Hps.
  split; [exact Hps|].
  rewrite applyForces_closed. cbn. lra.
Qed.

(** Two particles spawned on the sample system sit at its spawn position,
    (100, 160). *)
Example spawn_two :
  exists p1 p2 : Particle2D.t,
    particles (fst (spawn system200 (fun _ => 0.5) 2)) = [p1; p2]
    /\ Particle2D.x p1 = 100 /\ Particle2D.y p1 = 160
    /\ Particle2D.x p2 = 100 /\ Particle2D.y p2 = 160.
Proof.
  destruct (spawn_spec 2 system200 (fun _ => 0.5) 2 eq_refl)
    as (new & Hps & Hlen & Hall & _).
  destruct new as [|p1 [|p2 [|p3 new]]]; try discriminate.
  exists p1, p2. split; [exact Hps|].
  assert (Hx : x system200 = 100).
  { cbn [system200 new x canvas200 Canvas.width]. unfold JS.sar.
    rewrite ToInt32_IZR by lia. change (Z.shiftr 200 1) with 100%Z.
    reflexivity. }
  assert (Hy : y system200 = 160) by (cbn; lra).
  rewrite Hx, Hy in Hall.
  inversion Hall as [|? ? [H1 H2] Hall']. subst.
  inversion Hall' as [|? ? [H3 H4] _]. subst.
  repeat split; assumption.
Qed.

Lemma split_frame_velocityX_alpha_witness :
  Particle2D.velocityX
    (applyForces system200 (frameMultiple 50)
       (applyForces system200 (frameMultiple 50) sampleParticle))
  = Particle2D.velocityX
      (applyForces system200 (frameMultiple (50 + 50)) sampleParticle)
  /\ Particle2D.alpha
       (applyForces system200 (frameMultiple 50)
          (applyForces system200 (frameMultiple 50) sampleParticle))
     = Particle2D.alpha
         (applyForces system200 (frameMultiple (50 + 50)) sampleParticle).
Proof.
  destruct (split_frame_velocityX_alpha system200 sampleParticle 50 50)
    as (_ & Hv & Ha & _); [lra|lra|cbn; lra|cbn; lra|].
  split; assumption.
Defined.

Lemma alpha_never_increases_witness :
  Particle2D.alpha (applyForces system200 1 sampleParticle)
  <= Particle2D.alpha sampleParticle.
Proof.
  apply (alpha_never_increases system200 1 sampleParticle);
    cbn; lra.
Defined.

Lemma applyForces_perSecond_witness :
  ParticleSystemPerSecond.applyForces
    (ParticleSystemPerSecond.new canvas200) 3 (perSecond sampleParticle)
  = perSecond (applyForces system200 3 sampleParticle).
Proof.
  apply applyForces_perSecond; cbn; lra.
Defined.

Lemma dirtyRegion_bounds_live_particles_witness :
  exists s' : t,
    drawNextFrame sampleSystem 1050 = Some s'
    /\ Forall (inside (dirtyRegion s') 0) (particles s')
    /\ Forall (inside (dirtyRegion s') (PARTICLE_MASS_MAX s' * 2))
         (particles s').
Proof.
  apply dirtyRegion_bounds_live_particles; [reflexivity|cbn; lra].
Defined.

Lemma outsideParticle_removed :
  Particle2D.alpha
    (applyForces sampleSystem (frameMultipleAt sampleSystem 1050)
       outsideParticle) <= 0.1
  \/ Particle2D.y
       (applyForces sampleSystem (frameMultipleAt sampleSystem 1050)
          outsideParticle) < 0
  \/ Particle2D.x
       (applyForces sampleSystem (frameMultipleAt sampleSystem 1050)
          outsideParticle) < 0
  \/ Particle2D.y
       (applyForces sampleSystem (frameMultipleAt sampleSystem 1050)
          outsideParticle) > Canvas.height (canvas sampleSystem)
  \/ Particle2D.x
       (applyForces sampleSystem (frameMultipleAt sampleSystem 1050)
          outsideParticle) > Canvas.width (canvas sampleSystem).
Proof.
  do 4 right. rewrite applyForces_closed. cbn. lra.
Defined.

(** The frame 50 ms after the last one on the sample system: the particle
    beyond the edge, second in the array, has its five draw calls after
    those of the first particle and is gone afterwards. *)
Lemma removed_particle_is_drawn_then_dropped_witness :
  exists (s' s'' : t) (p' : Particle2D.t),
    drawNextFrame sampleSystem 1050 = Some s'
    /\ drawNextFrame (set_particles sampleSystem [sampleParticle]) 1050
       = Some s''
    /\ Particle2D.x p' = 201
    /\ (exists before after : list Canvas.Call,
          ctx s' =
          ctx sampleSystem ++ clearCalls sampleSystem
          ++ before ++ drawCalls p' ++ after
          /\ ctx s'' =
             ctx sampleSystem ++ clearCalls sampleSystem ++ before ++ after
          /\ length (List.filter isFillRect before) = 1%nat
          /\ length
               (List.filter isFillRect (before ++ drawCalls p' ++ after))
             = 2%nat)
    /\ In (Canvas.fillRect 201 100 40 40) (drawCalls p')
    /\ particles s' = particles s''
    /\ dirtyRegion s' = dirtyRegion s''.
Proof.
  destruct (removed_particle_is_drawn_then_dropped
              sampleSystem 1050 1 outsideParticle eq_refl
              outsideParticle_removed)
    as (s' & s'' & p' & H1 & H2 & Hp & Hdraw & Hctx & _ & H3 & H4).
  exists s', s'', p'.
  assert (Hx : Particle2D.x p' = 201) by (rewrite Hp; cbn; lra).
  assert (Hy : Particle2D.y p' = 100) by (rewrite Hp; cbn; lra).
  assert (Hm : Particle2D.mass p' = 40) by (rewrite Hp; reflexivity).
  repeat (split; [assumption|]).
  split; [|split; assumption].
  rewrite Hdraw, Hx, Hy, Hm. do 4 right. left.
  rewrite !double_tilde_ToInt32, !ToInt32_IZR by lia. reflexivity.
Defined.

(** * Further properties *)

(** ** spawn, in full *)

Lemma spawnBody_closed (s : t) (rnd : JS.Random) :
  spawnBody s rnd
  = (set_particles s (particles s ++ [spawnedParticle s rnd]),
     afterFour rnd).
Proof. reflexivity. Qed.

Lemma spawnedList_set_particles (s : t) (v : list Particle2D.t) (k : nat) :
  forall rnd : JS.Random,
    spawnedList (set_particles s v) rnd k = spawnedList s rnd k.
Proof.
  induction k as [|k IH]; intros rnd; [reflexivity|].
  cbn [spawnedList]. rewrite IH. reflexivity.
Qed.

Lemma spawn_closed (k : nat) :
  forall (s : t) (rnd : JS.Random) (n : Z),
    Z.to_nat n = k ->
    fst (spawn s rnd n)
    = set_particles s (particles s ++ spawnedList s rnd k)
    /\ forall j : nat, snd (spawn s rnd n) j = rnd (4 * k + j)%nat.
Proof.
  induction k as [|k IH]; intros s rnd n Hn; rewrite spawn_step.
  - destruct (Z_gt_dec n 0); [lia|]. cbn [fst snd spawnedList].
    rewrite app_nil_r. split; [destruct s; reflexivity|reflexivity].
  - destruct (Z_gt_dec n 0); [|lia].
    rewrite spawnBody_closed. cbn [fst snd].
    destruct (IH (set_particles s (particles s ++ [spawnedParticle s rnd]))
                 (afterFour rnd) (n - 1)%Z) as [Hs Hr]; [lia|].
    rewrite Hs, spawnedList_set_particles. split.
    + cbn [spawnedList].
      change (particles (set_particles s ?v)) with v.
      rewrite <- app_assoc. reflexivity.
    + intros j. rewrite Hr. unfold afterFour. f_equal. lia.
Qed.

Lemma spawnedParticle_within (s : t) (rnd : JS.Random) :
  (forall j : nat, 0 <= rnd j < 1) ->
  PARTICLE_VELOCITY_X_MIN s <= PARTICLE_VELOCITY_X_MAX s ->
  PARTICLE_VELOCITY_Y_MIN s <= PARTICLE_VELOCITY_Y_MAX s ->
  PARTICLE_MASS_MIN s <= PARTICLE_MASS_MAX s ->
  withinSettings s (spawnedParticle s rnd).
Proof.
  intros Hr Hx Hy Hm. unfold withinSettings, spawnedParticle.
  cbn [Particle2D.velocityX Particle2D.velocityY Particle2D.mass
       Particle2D.alpha Particle2D.burnRate Particle2D.sharpness
       Particle2D.color Particle2D.RED Particle2D.GREEN Particle2D.BLUE].
  pose proof (Hr 0%nat). pose proof (Hr 1%nat).
  pose proof (Hr 2%nat). pose proof (Hr 3%nat).
  repeat split; try reflexivity; nra.
Qed.

(** X1. With random draws in [0, 1) and ranges whose minimum is not above
    their maximum, every particle [spawn] pushes has its velocities and
    its mass within the ranges of the settings, an alpha in [0, 1), and
    the burn rate, sharpness and colour of the settings. *)
Theorem spawn_within_settings (s : t) (rnd : JS.Random) (n : Z) :
  (forall j : nat, 0 <= rnd j < 1) ->
  PARTICLE_VELOCITY_X_MIN s <= PARTICLE_VELOCITY_X_MAX s ->
  PARTICLE_VELOCITY_Y_MIN s <= PARTICLE_VELOCITY_Y_MAX s ->
  PARTICLE_MASS_MIN s <= PARTICLE_MASS_MAX s ->
  exists new : list Particle2D.t,
    particles (fst (spawn s rnd n)) = particles s ++ new
    /\ Forall (withinSettings s) new.
Proof.
  intros Hr Hx Hy Hm.
  destruct (spawn_closed (Z.to_nat n) s rnd n eq_refl) as [Hs _].
  exists (spawnedList s rnd (Z.to_nat n)).
  split; [rewrite Hs; reflexivity|].
  clear Hs. generalize (Z.to_nat n) as k. intros k. revert rnd Hr.
  induction k as [|k IH]; intros rnd Hr; cbn [spawnedList]; constructor.
  - apply spawnedParticle_within; assumption.
  - apply IH. intros j. apply Hr.
Qed.

(** X2. [spawn] writes [particles] and nothing else of the system, and it
    takes exactly four random draws for each particle it pushes: the
    stream it leaves is the one it got, 4 n draws further. *)
Theorem spawn_writes_particles_only (s : t) (rnd : JS.Random) (n : Z) :
  fst (spawn s rnd n) = set_particles s (particles (fst (spawn s rnd n)))
  /\ forall j : nat,
       snd (spawn s rnd n) j = rnd (4 * Z.to_nat n + j)%nat.
Proof.
  destruct (spawn_closed (Z.to_nat n) s rnd n eq_refl) as [Hs Hr].
  split; [|exact Hr]. rewrite Hs. reflexivity.
Qed.

(** X3. Spawning n1 and then n2 particles, the second call on the random
    stream the first one left, is spawning n1 + n2 at once. *)
Theorem spawn_add (s : t) (rnd : JS.Random) (n1 n2 : Z) :
  (0 <= n1)%Z ->
  (0 <= n2)%Z ->
  spawn s rnd (n1 + n2)
  = spawn (fst (spawn s rnd n1)) (snd (spawn s rnd n1)) n2.
Proof.
  intros H1 H2. remember (Z.to_nat n1) as k eqn:Hk.
  revert s rnd n1 H1 Hk.
  induction k as [|k IH]; intros s rnd n1 H1 Hk.
  - assert (n1 = 0%Z) as -> by lia.
    rewrite (spawn_step s rnd 0).
    destruct (Z_gt_dec 0 0); [lia|reflexivity].
  - rewrite (spawn_step s rnd (n1 + n2)), (spawn_step s rnd n1).
    destruct (Z_gt_dec (n1 + n2) 0); [|lia].
    destruct (Z_gt_dec n1 0); [|lia].
    replace (n1 + n2 - 1)%Z with ((n1 - 1) + n2)%Z by lia.
    apply IH; lia.
Qed.

Lemma spawn_within_settings_witness :
  exists new : list Particle2D.t,
    particles (fst (spawn system200 (fun _ => 0.5) 3))
    = particles system200 ++ new
    /\ Forall (withinSettings system200) new.
Proof.
  apply spawn_within_settings; cbn; try lra. intros _. lra.
Defined.

Lemma spawn_add_witness :
  spawn system200 (fun _ => 0.5) (1 + 2)
  = spawn (fst (spawn system200 (fun _ => 0.5) 1))
          (snd (spawn system200 (fun _ => 0.5) 1)) 2.
Proof. apply spawn_add; lia. Defined.

(** ** The clock *)

Lemma timeSinceLastFrame_first (s : t) (time : R) :
  lastFrameTime s <= 0 -> timeSinceLastFrame s time = 0.
Proof.
  intros H. unfold timeSinceLastFrame, JS.gtb, JS.ltb.
  destruct (Rlt_dec 0 (lastFrameTime s)); [lra|reflexivity].
Qed.

Lemma timeSinceLastFrame_later (s : t) (time : R) :
  0 < lastFrameTime s -> timeSinceLastFrame s time = time - lastFrameTime s.
Proof.
  intros H. unfold timeSinceLastFrame, JS.gtb, JS.ltb.
  destruct (Rlt_dec 0 (lastFrameTime s)); [reflexivity|lra].
Qed.

Lemma frameMultiple_0 : frameMultiple 0 = 1.
Proof.
  unfold frameMultiple, JS.strict_eqb.
  destruct (Req_dec_T 0 0); [reflexivity|lra].
Qed.

Lemma frameMultiple_nonzero (elapsed : R) :
  elapsed <> 0 -> frameMultiple elapsed = elapsed / (1000 / 60).
Proof.
  intros H. unfold frameMultiple, JS.strict_eqb.
  destruct (Req_dec_T elapsed 0); [contradiction|reflexivity].
Qed.

(** X4. [drawNextFrame] stores the clock reading it was given. The frame
    multiple it advances the particles by is 1 on a first frame (no positive reading stored, as after
    the constructor) and when no time has passed since the stored
    reading; otherwise it is the elapsed time over 1000/60 ms, negative
    when the clock went backwards. After a frame at a positive reading
    the next frame measures from that reading. *)
Theorem frame_multiple_cases (s : t) (time : R) :
  exists s' : t,
    drawNextFrame s time = Some s'
    /\ particles s' =
       List.filter (fun p => negb (shouldRemove s p))
         (map (applyForces s (frameMultipleAt s time)) (particles s))
    /\ lastFrameTime s' = time
    /\ (lastFrameTime s <= 0 -> frameMultipleAt s time = 1)
    /\ (time = lastFrameTime s -> frameMultipleAt s time = 1)
    /\ (0 < lastFrameTime s ->
        time <> lastFrameTime s ->
        frameMultipleAt s time = (time - lastFrameTime s) / (1000 / 60))
    /\ (forall time2 : R,
          0 < time ->
          time2 <> time ->
          frameMultipleAt s' time2 = (time2 - time) / (1000 / 60)).
Proof.
  destruct (drawNextFrame_fields s time)
    as (s' & Hrun & Hps & _ & _ & Ht & _).
  exists s'. split; [assumption|]. split; [exact Hps|].
  split; [assumption|].
  unfold frameMultipleAt. repeat split.
  - intros H. rewrite timeSinceLastFrame_first by assumption.
    apply frameMultiple_0.
  - intros ->. destruct (Rlt_dec 0 (lastFrameTime s)).
    + rewrite timeSinceLastFrame_later by assumption.
      replace (lastFrameTime s - lastFrameTime s) with 0 by lra.
      apply frameMultiple_0.
    + rewrite timeSinceLastFrame_first by lra. apply frameMultiple_0.
  - intros Hpos Hne. rewrite timeSinceLastFrame_later by assumption.
    apply frameMultiple_nonzero. lra.
  - intros time2 Hpos Hne.
    rewrite timeSinceLastFrame_later by (rewrite Ht; assumption).
    rewrite Ht. apply frameMultiple_nonzero. lra.
Qed.

(** ** Frames at the edges *)

Lemma survivors_none (s : t) (m : R) (ps : list Particle2D.t) :
  Forall (fun p => shouldRemove s (applyForces s m p) = true) ps ->
  survivors s m ps = [].
Proof.
  induction 1 as [|p ps Hp _ IH]; [reflexivity|].
  rewrite survivors_cons, Hp. exact IH.
Qed.

Lemma clearCalls_settings (s s' : t) :
  sameSettings s' s ->
  clearCalls s' =
  if autoClear s then
    [Canvas.clearRect
       (xMin (dirtyRegion s') - PARTICLE_MASS_MAX s * 2)
       (yMin (dirtyRegion s') - PARTICLE_MASS_MAX s * 2)
       (xMax (dirtyRegion s') - xMin (dirtyRegion s')
        + PARTICLE_MASS_MAX s * 2 * 2)
       (yMax (dirtyRegion s') - yMin (dirtyRegion s')
        + PARTICLE_MASS_MAX s * 2 * 2)]
  else [].
Proof.
  intros (_ & _ & _ & Hac & Hm). unfold clearCalls. rewrite Hac, Hm.
  reflexivity.
Qed.

(** X5. With [autoClear] set, a frame that removes every particle (or
    finds none) leaves an empty live set and the dirty region as it was
    reset, inside out: the next frame then clears the rectangle of corner
    (width - margin, height - margin) and of size (2 margin - width,
    2 margin - height), where margin is [PARTICLE_MASS_MAX * 2]. *)
Theorem frame_without_survivors (s : t) (time : R) :
  autoClear s = true ->
  Forall (fun p =>
            shouldRemove s (applyForces s (frameMultipleAt s time) p) = true)
         (particles s) ->
  exists s' : t,
    drawNextFrame s time = Some s'
    /\ particles s' = []
    /\ dirtyRegion s' = resetRegion s
    /\ clearCalls s' =
       [Canvas.clearRect
          (Canvas.width (canvas s) - PARTICLE_MASS_MAX s * 2)
          (Canvas.height (canvas s) - PARTICLE_MASS_MAX s * 2)
          (0 - Canvas.width (canvas s) + PARTICLE_MASS_MAX s * 2 * 2)
          (0 - Canvas.height (canvas s) + PARTICLE_MASS_MAX s * 2 * 2)].
Proof.
  intros Hac Hall.
  destruct (drawNextFrame_fields s time)
    as (s' & Hrun & Hps & _ & Hd & _ & Hs).
  rewrite (survivors_none _ _ _ Hall) in Hps, Hd.
  rewrite Hac in Hd. cbn [fold_left] in Hd.
  exists s'. repeat split; try assumption.
  rewrite (clearCalls_settings s s' Hs), Hac, Hd. reflexivity.
Qed.



Lemma shouldRemove_false (s : t) (p : Particle2D.t) :
  shouldRemove s p = false <->
  0.1 < Particle2D.alpha p
  /\ 0 <= Particle2D.x p <= Canvas.width (canvas s)
  /\ 0 <= Particle2D.y p <= Canvas.height (canvas s).
Proof.
  rewrite <- not_true_iff_false, shouldRemove_true. split.
  - intros H. repeat split; apply Rnot_lt_le || apply Rnot_le_lt;
      intros Hc; apply H; auto 6.
  - intros (Ha & Hx & Hy) [H|[H|[H|[H|H]]]]; lra.
Qed.

(** X7. A frame never adds a particle, and every particle it leaves in
    the live set has an alpha above 0.1 and a position within
    [0, width] x [0, height]. *)
Theorem frame_leaves_visible_particles (s : t) (time : R) :
  exists s' : t,
    drawNextFrame s time = Some s'
    /\ (length (particles s') <= length (particles s))%nat
    /\ Forall (fun p =>
                 0.1 < Particle2D.alpha p
                 /\ 0 <= Particle2D.x p <= Canvas.width (canvas s)
                 /\ 0 <= Particle2D.y p <= Canvas.height (canvas s))
              (particles s').
Proof.
  destruct (drawNextFrame_fields s time) as (s' & Hrun & Hps & _).
  exists s'. split; [assumption|]. rewrite Hps. unfold survivors. split.
  - etransitivity; [apply List.filter_length_le|].
    unfold updated. rewrite length_map. reflexivity.
  - apply List.Forall_forall. intros p Hp.
    apply List.filter_In in Hp. destruct Hp as [_ Hlive].
    unfold live in Hlive. apply negb_true_iff in Hlive.
    apply shouldRemove_false, Hlive.
Qed.

(** ** The dirty region, tightly *)

(** Each bound of the folded region is the bound it started from or the
    coordinate of a particle folded in. *)
Lemma fold_updateDirtyRegion_attained (ps : list Particle2D.t) :
  forall d : DirtyRegion,
    let d' := fold_left updateDirtyRegion ps d in
    (xMin d' = xMin d \/ exists p, In p ps /\ Particle2D.x p = xMin d')
    /\ (xMax d' = xMax d \/ exists p, In p ps /\ Particle2D.x p = xMax d')
    /\ (yMin d' = yMin d \/ exists p, In p ps /\ Particle2D.y p = yMin d')
    /\ (yMax d' = yMax d \/ exists p, In p ps /\ Particle2D.y p = yMax d').
Proof.
  induction ps as [|p ps IH]; intros d; cbn [fold_left].
  - cbv zeta. tauto.
  - specialize (IH (updateDirtyRegion d p)). cbv zeta in IH |- *.
    set (d' := fold_left updateDirtyRegion ps (updateDirtyRegion d p)) in *.
    assert (Hone :
              (xMin (updateDirtyRegion d p) = xMin d
               \/ xMin (updateDirtyRegion d p) = Particle2D.x p)
              /\ (xMax (updateDirtyRegion d p) = xMax d
                  \/ xMax (updateDirtyRegion d p) = Particle2D.x p)
              /\ (yMin (updateDirtyRegion d p) = yMin d
                  \/ yMin (updateDirtyRegion d p) = Particle2D.y p)
              /\ (yMax (updateDirtyRegion d p) = yMax d
                  \/ yMax (updateDirtyRegion d p) = Particle2D.y p)).
    { destruct d as [x0 x1 y0 y1].
      unfold updateDirtyRegion, JS.gtb, JS.ltb.
      cbn [xMin xMax yMin yMax set_xMin set_xMax set_yMin set_yMax].
      repeat match goal with
             | |- context [Rlt_dec ?a ?b] =>
                 destruct (Rlt_dec a b);
                 cbn [xMin xMax yMin yMax set_xMin set_xMax set_yMin
                      set_yMax] in *
             end; tauto. }
    destruct IH as (I1 & I2 & I3 & I4).
    destruct Hone as (O1 & O2 & O3 & O4).
    repeat split.
    + destruct I1 as [I1|(q & Hq & E)];
        [|right; exists q; split; [right; assumption|assumption]].
      destruct O1 as [O1|O1]; [left; congruence|].
      right. exists p. split; [left; reflexivity|congruence].
    + destruct I2 as [I2|(q & Hq & E)];
        [|right; exists q; split; [right; assumption|assumption]].
      destruct O2 as [O2|O2]; [left; congruence|].
      right. exists p. split; [left; reflexivity|congruence].
    + destruct I3 as [I3|(q & Hq & E)];
        [|right; exists q; split; [right; assumption|assumption]].
      destruct O3 as [O3|O3]; [left; congruence|].
      right. exists p. split; [left; reflexivity|congruence].
    + destruct I4 as [I4|(q & Hq & E)];
        [|right; exists q; split; [right; assumption|assumption]].
      destruct O4 as [O4|O4]; [left; congruence|].
      right. exists p. split; [left; reflexivity|congruence].
Qed.

(** X8. With [autoClear] set, on a canvas of non-negative width and
    height, the dirty region a frame leaves lies within the canvas, and
    when a particle is left it is the smallest box around the live
    particles: [xMin <= xMax], [yMin <= yMax], and each of the four bounds
    is the coordinate of a live particle. *)
Theorem dirtyRegion_is_bounding_box (s : t) (time : R) :
  autoClear s = true ->
  0 <= Canvas.width (canvas s) ->
  0 <= Canvas.height (canvas s) ->
  exists s' : t,
    drawNextFrame s time = Some s'
    /\ 0 <= xMin (dirtyRegion s') <= Canvas.width (canvas s)
    /\ 0 <= xMax (dirtyRegion s') <= Canvas.width (canvas s)
    /\ 0 <= yMin (dirtyRegion s') <= Canvas.height (canvas s)
    /\ 0 <= yMax (dirtyRegion s') <= Canvas.height (canvas s)
    /\ (particles s' <> [] ->
        xMin (dirtyRegion s') <= xMax (dirtyRegion s')
        /\ yMin (dirtyRegion s') <= yMax (dirtyRegion s')
        /\ (exists p, In p (particles s')
                      /\ Particle2D.x p = xMin (dirtyRegion s'))
        /\ (exists p, In p (particles s')
                      /\ Particle2D.x p = xMax (dirtyRegion s'))
        /\ (exists p, In p (particles s')
                      /\ Particle2D.y p = yMin (dirtyRegion s'))
        /\ (exists p, In p (particles s')
                      /\ Particle2D.y p = yMax (dirtyRegion s'))).
Proof.
  intros Hac HW HH.
  destruct (drawNextFrame_fields s time)
    as (s' & Hrun & Hps & _ & Hd & _).
  rewrite Hac in Hd. rewrite <- Hps in Hd.
  assert (Hvis : Forall (fun p =>
                   0.1 < Particle2D.alpha p
                   /\ 0 <= Particle2D.x p <= Canvas.width (canvas s)
                   /\ 0 <= Particle2D.y p <= Canvas.height (canvas s))
                 (particles s')).
  { rewrite Hps. apply List.Forall_forall. intros p Hp.
    apply List.filter_In in Hp. destruct Hp as [_ Hlive].
    unfold live in Hlive. apply negb_true_iff in Hlive.
    apply shouldRemove_false, Hlive. }
  rewrite List.Forall_forall in Hvis.
  destruct (fold_updateDirtyRegion (particles s') (resetRegion s))
    as [_ Hin].
  rewrite List.Forall_forall in Hin.
  pose proof (fold_updateDirtyRegion_attained (particles s')
                (resetRegion s)) as Hatt.
  cbv zeta in Hatt. rewrite <- Hd in Hin, Hatt.
  cbn [resetRegion xMin xMax yMin yMax] in Hatt.
  destruct Hatt as (A1 & A2 & A3 & A4).
  exists s'. split; [assumption|].
  assert (B1 : 0 <= xMin (dirtyRegion s') <= Canvas.width (canvas s)).
  { destruct A1 as [->|(q & Hq & <-)]; [lra|apply (Hvis q Hq)]. }
  assert (B2 : 0 <= xMax (dirtyRegion s') <= Canvas.width (canvas s)).
  { destruct A2 as [->|(q & Hq & <-)]; [lra|apply (Hvis q Hq)]. }
  assert (B3 : 0 <= yMin (dirtyRegion s') <= Canvas.height (canvas s)).
  { destruct A3 as [->|(q & Hq & <-)]; [lra|apply (Hvis q Hq)]. }
  assert (B4 : 0 <= yMax (dirtyRegion s') <= Canvas.height (canvas s)).
  { destruct A4 as [->|(q & Hq & <-)]; [lra|apply (Hvis q Hq)]. }
  repeat (split; [assumption|]).
  intros Hne. destruct (particles s') as [|p0 ps0] eqn:Hl;
    [contradiction|].
  assert (Hp0 : In p0 (p0 :: ps0)) by (left; reflexivity).
  pose proof (Hin p0 Hp0) as Hb. unfold inside in Hb.
  pose proof (Hvis p0 Hp0) as Hv.
  split; [lra|]. split; [lra|].
  repeat split.
  - destruct A1 as [E|?]; [|assumption]. exists p0. split; [assumption|lra].
  - destruct A2 as [E|?]; [|assumption]. exists p0. split; [assumption|lra].
  - destruct A3 as [E|?]; [|assumption]. exists p0. split; [assumption|lra].
  - destruct A4 as [E|?]; [|assumption]. exists p0. split; [assumption|lra].
Qed.

(** ** Truncated positions *)

(** [~~r] truncates towards zero, for [r] within the 32-bit range. *)
Lemma double_tilde_trunc (r : R) :
  - IZR (2 ^ 31) < r < IZR (2 ^ 31) ->
  (0 <= r -> r - 1 < JS.double_tilde r <= r)
  /\ (r <= 0 -> r <= JS.double_tilde r < r + 1).
Proof.
  intros [Hlo Hhi]. rewrite double_tilde_ToInt32.
  unfold JS.ToInt32, JS.trunc.
  destruct (Rle_dec 0 r) as [Hpos|Hneg].
  - pose proof (Zfloor_bound r) as [Hb1 Hb2].
    assert (0 <= Zfloor r)%Z by (apply Zfloor_lub; exact Hpos).
    assert (Zfloor r < 2 ^ 31)%Z by (apply lt_IZR; lra).
    rewrite wrap32_small by lia.
    split; intros H1; [lra|].
    assert (r = 0) as -> by lra. rewrite (ZfloorZ 0). lra.
  - pose proof (Zfloor_bound (- r)) as [Hb1 Hb2].
    assert (0 <= Zfloor (- r))%Z by (apply Zfloor_lub; lra).
    assert (Zfloor (- r) < 2 ^ 31)%Z by (apply lt_IZR; lra).
    rewrite wrap32_small by lia. rewrite opp_IZR.
    split; intros ?; lra.
Qed.

Lemma fillRect_in_drawCalls (p : Particle2D.t) :
  In (Canvas.fillRect (JS.double_tilde (Particle2D.x p))
        (JS.double_tilde (Particle2D.y p)) (Particle2D.mass p)
        (Particle2D.mass p))
     (drawCalls p).
Proof.
  unfold drawCalls, Particle2D.draw. cbv zeta.
  apply List.in_or_app. right. left. reflexivity.
Qed.

(** X9. With [autoClear] set and a margin of at least one pixel
    ([PARTICLE_MASS_MAX >= 1/2]) on a canvas below 2^31 pixels, the
    rectangle the next frame clears holds the square a frame filled for
    every particle it left in the live set, provided the mass of the
    particle is within [0, PARTICLE_MASS_MAX]. *)
Theorem next_clear_holds_live_squares (s : t) (time : R) :
  autoClear s = true ->
  1 / 2 <= PARTICLE_MASS_MAX s ->
  Canvas.width (canvas s) < IZR (2 ^ 31) ->
  Canvas.height (canvas s) < IZR (2 ^ 31) ->
  exists (s' : t) (cx cy cw ch : R),
    drawNextFrame s time = Some s'
    /\ clearCalls s' = [Canvas.clearRect cx cy cw ch]
    /\ Forall (fun p =>
                 0 <= Particle2D.mass p <= PARTICLE_MASS_MAX s ->
                 In (Canvas.fillRect (JS.double_tilde (Particle2D.x p))
                       (JS.double_tilde (Particle2D.y p))
                       (Particle2D.mass p) (Particle2D.mass p))
                    (ctx s')
                 /\ rectHoldsSquare cx cy cw ch
                      (JS.double_tilde (Particle2D.x p))
                      (JS.double_tilde (Particle2D.y p))
                      (Particle2D.mass p))
              (particles s').
Proof.
  intros Hac Hmax HW HH.
  destruct (drawNextFrame_fields s time)
    as (s' & Hrun & Hps & Hctx & Hd & _ & Hs).
  rewrite Hac in Hd. rewrite <- Hps in Hd.
  pose proof (clearCalls_settings s s' Hs) as Hclear.
  rewrite Hac in Hclear.
  eexists s', _, _, _, _. split; [exact Hrun|]. split; [exact Hclear|].
  destruct (fold_updateDirtyRegion (particles s') (resetRegion s))
    as [_ Hin].
  rewrite <- Hd in Hin. rewrite List.Forall_forall in Hin.
  apply List.Forall_forall. intros p Hp Hmass.
  assert (Hsurv : In p (survivors s (frameMultipleAt s time) (particles s)))
    by (rewrite <- Hps; exact Hp).
  unfold survivors in Hsurv. apply List.filter_In in Hsurv.
  destruct Hsurv as [Hupd Hlive].
  unfold live in Hlive. apply negb_true_iff in Hlive.
  apply shouldRemove_false in Hlive. destruct Hlive as (_ & Hx & Hy).
  split.
  - rewrite Hctx. apply List.in_or_app. right.
    apply List.in_or_app. right.
    apply List.in_concat. exists (drawCalls p).
    split; [apply List.in_map; exact Hupd|apply fillRect_in_drawCalls].
  - pose proof (Hin p Hp) as Hb. unfold inside in Hb.
    destruct (double_tilde_trunc (Particle2D.x p)) as [Tx _]; [lra|].
    destruct (double_tilde_trunc (Particle2D.y p)) as [Ty _]; [lra|].
    specialize (Tx (proj1 Hx)). specialize (Ty (proj1 Hy)).
    unfold rectHoldsSquare. lra.
Qed.

(** ** What a frame never writes *)

Lemma fixedFields_filter (f : Particle2D.t -> bool)
      (ps : list Particle2D.t) :
  sublist (map fixedFields (List.filter f ps)) (map fixedFields ps).
Proof.
  induction ps as [|p ps IH]; [constructor|].
  cbn [List.filter map]. destruct (f p); cbn [map].
  - apply sublist_skip, IH.
  - apply sublist_cons, IH.
Qed.

(** X10. A frame writes no mass, burn rate, sharpness or colour, and
    keeps the particles it leaves in their order: these fields of the
    live set after the frame are a sublist of what they were before. *)
Theorem frame_keeps_fixed_fields (s : t) (time : R) :
  exists s' : t,
    drawNextFrame s time = Some s'
    /\ sublist (map fixedFields (particles s'))
               (map fixedFields (particles s)).
Proof.
  destruct (drawNextFrame_fields s time) as (s' & Hrun & Hps & _).
  exists s'. split; [assumption|].
  rewrite Hps. unfold survivors.
  replace (map fixedFields (particles s))
    with (map fixedFields (updated s (frameMultipleAt s time) (particles s))).
  - apply fixedFields_filter.
  - unfold updated. rewrite map_map. reflexivity.
Qed.

(** ** A run of frames *)



Lemma totalMultiple_nonneg (ms : list R) :
  Forall (fun k => 0 <= k) ms -> 0 <= totalMultiple ms.
Proof.
  induction 1 as [|k ms Hk _ IH]; cbn [totalMultiple fold_right]; [lra|].
  unfold totalMultiple in IH. lra.
Qed.

Lemma applyForcesMany_alpha (s : t) (ms : list R) :
  forall p : Particle2D.t,
    0 < Particle2D.burnRate p ->
    Particle2D.alpha (applyForcesMany s ms p)
    = Particle2D.alpha p
      * JS.Math_pow (Particle2D.burnRate p) (totalMultiple ms).
Proof.
  induction ms as [|m ms IH]; intros p Hb.
  - cbn [applyForcesMany fold_left totalMultiple fold_right].
    rewrite Math_pow_Rpower, Rpower_O by assumption. lra.
  - change (applyForcesMany s (m :: ms) p)
      with (applyForcesMany s ms (applyForces s m p)).
    rewrite IH by exact Hb.
    change (Particle2D.burnRate (applyForces s m p))
      with (Particle2D.burnRate p).
    change (Particle2D.alpha (applyForces s m p))
      with (Particle2D.alpha p * JS.Math_pow (Particle2D.burnRate p) m).
    cbn [totalMultiple fold_right]. fold (totalMultiple ms).
    rewrite Math_pow_plus by assumption. ring.
Qed.

Lemma applyForcesMany_velocityX (s : t) (ms : list R) :
  forall p : Particle2D.t,
    UNIVERSE_FRICTION s < 1 ->
    Particle2D.velocityX (applyForcesMany s ms p)
    = Particle2D.velocityX p
      * JS.Math_pow (1 - UNIVERSE_FRICTION s) (totalMultiple ms).
Proof.
  induction ms as [|m ms IH]; intros p Hf.
  - cbn [applyForcesMany fold_left totalMultiple fold_right].
    rewrite Math_pow_Rpower, Rpower_O by lra. lra.
  - change (applyForcesMany s (m :: ms) p)
      with (applyForcesMany s ms (applyForces s m p)).
    rewrite IH by exact Hf.
    change (Particle2D.velocityX (applyForces s m p))
      with (Particle2D.velocityX p
            * JS.Math_pow (1 - UNIVERSE_FRICTION s) m).
    cbn [totalMultiple fold_right]. fold (totalMultiple ms).
    rewrite Math_pow_plus by lra. ring.
Qed.

(** X11. Over any run of frames (friction below 1, burnRate positive) the
    alpha and the velocityX of a particle depend on the sum M of the
    frame multiples alone: alpha is the first alpha times burnRate^M and
    velocityX the first velocityX times (1 - friction)^M, however the
    time was cut into frames. *)
Theorem alpha_velocityX_by_total_multiple
        (s : t) (ms : list R) (p : Particle2D.t) :
  UNIVERSE_FRICTION s < 1 ->
  0 < Particle2D.burnRate p ->
  Particle2D.alpha (applyForcesMany s ms p)
  = Particle2D.alpha p
    * JS.Math_pow (Particle2D.burnRate p) (totalMultiple ms)
  /\ Particle2D.velocityX (applyForcesMany s ms p)
     = Particle2D.velocityX p
       * JS.Math_pow (1 - UNIVERSE_FRICTION s) (totalMultiple ms)
  /\ (forall ms' : list R,
        totalMultiple ms' = totalMultiple ms ->
        Particle2D.alpha (applyForcesMany s ms' p)
        = Particle2D.alpha (applyForcesMany s ms p)
        /\ Particle2D.velocityX (applyForcesMany s ms' p)
           = Particle2D.velocityX (applyForcesMany s ms p)).
Proof.
  intros Hf Hb.
  split; [apply applyForcesMany_alpha, Hb|].
  split; [apply applyForcesMany_velocityX, Hf|].
  intros ms' Heq.
  rewrite !applyForcesMany_alpha, !applyForcesMany_velocityX, Heq
    by assumption.
  split; reflexivity.
Qed.

(** X12. With a friction in [0, 1), no run of frames of non-negative
    multiples makes a particle faster along x: the absolute value of
    velocityX never grows. *)
Theorem friction_never_speeds_up_x
        (s : t) (ms : list R) (p : Particle2D.t) :
  0 <= UNIVERSE_FRICTION s < 1 ->
  Forall (fun k => 0 <= k) ms ->
  Rabs (Particle2D.velocityX (applyForcesMany s ms p))
  <= Rabs (Particle2D.velocityX p).
Proof.
  intros Hf Hms.
  rewrite applyForcesMany_velocityX by lra.
  pose proof (Math_pow_range (1 - UNIVERSE_FRICTION s) (totalMultiple ms))
    as Hr.
  destruct Hr as [Hr0 Hr1]; [lra|apply totalMultiple_nonneg, Hms|].
  rewrite Rabs_mult, (Rabs_pos_eq (JS.Math_pow _ _)) by lra.
  pose proof (Rabs_pos (Particle2D.velocityX p)). nra.
Qed.



(** ** The two variants agree *)

Lemma perSecond_drawLoop_step
      (s : ParticleSystemPerSecond.t) (m : R) (i : Z) :
  ParticleSystemPerSecond.drawLoop s m i =
  if Z_lt_dec i (Z.of_nat (length (ParticleSystemPerSecond.particles s)))
  then
    match array_get (ParticleSystemPerSecond.particles s) i with
    | None => None
    | Some p =>
        ParticleSystemPerSecond.drawLoop
          (fst (ParticleSystemPerSecond.loopBody s m i p)) m
          (snd (ParticleSystemPerSecond.loopBody s m i p) + 1)
    end
  else Some s.
Proof.
  rewrite ParticleSystemPerSecond.drawLoop_equation_1.
  destruct (Z_lt_dec i
              (Z.of_nat (length (ParticleSystemPerSecond.particles s))))
    as [Hlt|Hge].
  - cbn [ParticleSystemPerSecond.drawLoop_unfold_clause_1].
    destruct (inspect (array_get (ParticleSystemPerSecond.particles s) i))
      as [[p|] Hp];
      cbn [ParticleSystemPerSecond.drawLoop_unfold_clause_1_clause_2];
      rewrite Hp; reflexivity.
  - reflexivity.
Qed.

Lemma perSecond_spawn_step
      (s : ParticleSystemPerSecond.t) (rnd : JS.Random) (n : Z) :
  ParticleSystemPerSecond.spawn s rnd n =
  if Z_gt_dec n 0
  then ParticleSystemPerSecond.spawn
         (fst (ParticleSystemPerSecond.spawnBody s rnd))
         (snd (ParticleSystemPerSecond.spawnBody s rnd)) (n - 1)
  else (s, rnd).
Proof.
  rewrite ParticleSystemPerSecond.spawn_equation_1.
  destruct (Z_gt_dec n 0); reflexivity.
Qed.

Lemma map_perSecond_insert (ps : list Particle2D.t) (p : Particle2D.t) :
  forall i : nat,
    <[i := perSecond p]> (map perSecond ps) = map perSecond (<[i := p]> ps).
Proof.
  induction ps as [|q ps IH]; intros [|i]; cbn; try reflexivity.
  rewrite IH. reflexivity.
Qed.

Lemma map_perSecond_delete (ps : list Particle2D.t) :
  forall i : nat,
    delete i (map perSecond ps) = map perSecond (delete i ps).
Proof.
  induction ps as [|q ps IH]; intros [|i]; cbn; try reflexivity.
  rewrite IH. reflexivity.
Qed.

Lemma applyForces_toPerSecond (s : t) (m : R) (p : Particle2D.t) :
  ParticleSystemPerSecond.applyForces (toPerSecond s) m (perSecond p)
  = perSecond (applyForces s m p).
Proof.
  rewrite applyForces_closed.
  unfold ParticleSystemPerSecond.applyForces, perSecond.
  destruct p as [px py vx vy ms al br sh co].
  cbv [Particle2D.set_x Particle2D.set_y Particle2D.set_velocityX
       Particle2D.set_velocityY Particle2D.set_alpha
       Particle2D.x Particle2D.y Particle2D.velocityX Particle2D.velocityY
       Particle2D.mass Particle2D.alpha Particle2D.burnRate
       Particle2D.sharpness Particle2D.color].
  cbn [toPerSecond ParticleSystemPerSecond.UNIVERSE_GRAVITY
       ParticleSystemPerSecond.UNIVERSE_FRICTION].
  f_equal; lra.
Qed.

(** One turn of the loop, in both variants. *)
Lemma loopBody_toPerSecond (s : t) (m : R) (i : Z) (p : Particle2D.t) :
  ParticleSystemPerSecond.loopBody (toPerSecond s) m i (perSecond p)
  = (toPerSecond (fst (loopBody s m i p)), snd (loopBody s m i p)).
Proof.
  unfold ParticleSystemPerSecond.loopBody, loopBody. cbv zeta.
  rewrite applyForces_toPerSecond.
  set (p' := applyForces s m p).
  change (ParticleSystemPerSecond.particles (toPerSecond s))
    with (map perSecond (particles s)).
  rewrite map_perSecond_insert.
  set (ps1 := <[Z.to_nat i := p']> (particles s)).
  change (ParticleSystemPerSecond.shouldRemove _ (perSecond p'))
    with (shouldRemove (set_ctx (set_particles s ps1)
                          (Particle2D.draw p' (ctx (set_particles s ps1))))
            p').
  destruct (shouldRemove _ p').
  - cbn [fst snd]. f_equal.
    change (ParticleSystemPerSecond.particles
              (ParticleSystemPerSecond.set_ctx
                 (ParticleSystemPerSecond.set_particles (toPerSecond s)
                    (map perSecond ps1)) _))
      with (map perSecond ps1).
    rewrite map_perSecond_delete. reflexivity.
  - change (ParticleSystemPerSecond.autoClear _) with (autoClear s).
    change (autoClear (set_ctx (set_particles s ps1) _))
      with (autoClear s).
    destruct (autoClear s); reflexivity.
Qed.

(** After one turn on [done ++ p :: rest] the loop is at the head of
    [rest], and what it will leave is what it leaves from the start. *)
Lemma loopResult_next (s : t) (m : R) (done rest : list Particle2D.t)
      (p : Particle2D.t) :
  particles s = done ++ p :: rest ->
  exists done' : list Particle2D.t,
    (snd (loopBody s m (Z.of_nat (length done)) p) + 1)%Z
    = Z.of_nat (length done')
    /\ particles (fst (loopBody s m (Z.of_nat (length done)) p))
       = done' ++ rest
    /\ loopResult (fst (loopBody s m (Z.of_nat (length done)) p)) m
                  done' rest
       = loopResult s m done (p :: rest).
Proof.
  intros Hps.
  pose proof (drawLoop_spec m (p :: rest) s done Hps) as Hall.
  rewrite drawLoop_step in Hall.
  destruct (Z_lt_dec _ _) as [_|Hge] in Hall;
    [|rewrite Hps, length_app in Hge; cbn in Hge; lia].
  replace (array_get (particles s) _) with (Some p) in Hall
    by (rewrite Hps; symmetry; apply array_get_middle).
  pose proof (loopBody_spec s m done rest p Hps) as Hbody.
  cbv zeta in Hbody.
  set (b := loopBody s m (Z.of_nat (length done)) p) in *.
  assert (Hcase :
            exists done' : list Particle2D.t,
              (snd b + 1)%Z = Z.of_nat (length done')
              /\ particles (fst b) = done' ++ rest).
  { rewrite Hbody.
    destruct (shouldRemove s (applyForces s m p)).
    - exists done. cbn [fst snd]. split; [lia|reflexivity].
    - exists (done ++ [applyForces s m p]).
      destruct (autoClear s); cbn [fst snd];
        (split; [rewrite length_app; cbn; lia|]);
        rewrite <- app_assoc; reflexivity. }
  destruct Hcase as (done' & Hi & Hp').
  exists done'. split; [exact Hi|]. split; [exact Hp'|].
  rewrite Hi, (drawLoop_spec m rest (fst b) done' Hp') in Hall.
  congruence.
Qed.

Lemma drawLoop_toPerSecond (m : R) (todo : list Particle2D.t) :
  forall (s : t) (done : list Particle2D.t),
    particles s = done ++ todo ->
    ParticleSystemPerSecond.drawLoop (toPerSecond s) m
      (Z.of_nat (length done))
    = Some (toPerSecond (loopResult s m done todo)).
Proof.
  induction todo as [|p rest IH]; intros s done Hps;
    rewrite perSecond_drawLoop_step;
    change (ParticleSystemPerSecond.particles (toPerSecond s))
      with (map perSecond (particles s));
    rewrite length_map.
  - destruct (Z_lt_dec _ _) as [Hlt|_];
      [rewrite Hps, app_nil_r in Hlt; lia|].
    rewrite loopResult_nil; [reflexivity|].
    rewrite Hps. apply app_nil_r.
  - destruct (Z_lt_dec _ _) as [_|Hge];
      [|rewrite Hps, length_app in Hge; cbn in Hge; lia].
    replace (array_get (map perSecond (particles s)) _)
      with (Some (perSecond p)).
    + rewrite loopBody_toPerSecond. cbn [fst snd].
      destruct (loopResult_next s m done rest p Hps)
        as (done' & Hi & Hp' & Hres).
      rewrite Hi, (IH _ done' Hp'), Hres. reflexivity.
    + rewrite Hps, map_app. cbn [map].
      rewrite <- (length_map perSecond done).
      symmetry. apply array_get_middle.
Qed.

Lemma clearDirtyRegion_toPerSecond (s : t) :
  ParticleSystemPerSecond.clearDirtyRegion (toPerSecond s)
  = toPerSecond (clearDirtyRegion s).
Proof.
  unfold ParticleSystemPerSecond.clearDirtyRegion, clearDirtyRegion.
  change (ParticleSystemPerSecond.autoClear (toPerSecond s))
    with (autoClear s).
  destruct (autoClear s); reflexivity.
Qed.

Lemma new_toPerSecond (c : Canvas.t) :
  toPerSecond (new c) = ParticleSystemPerSecond.new c.
Proof.
  unfold toPerSecond, new, ParticleSystemPerSecond.new.
  cbn [UNIVERSE_GRAVITY UNIVERSE_FRICTION PARTICLE_MASS_MIN
       PARTICLE_MASS_MAX PARTICLE_BURN_RATE PARTICLE_SHARPNESS
       PARTICLE_VELOCITY_X_MIN PARTICLE_VELOCITY_X_MAX
       PARTICLE_VELOCITY_Y_MIN PARTICLE_VELOCITY_Y_MAX SPAWN_COLOR x y
       particles canvas ctx autoClear dirtyRegion lastFrameTime map].
  f_equal; lra.
Qed.

(** In the doubles of the code the two frames can part: a particle at
    y = 0.35 rising at 0.007 per millisecond with mass 50 lands just below
    0 in [src/particles.js] and is removed, and on 0 in
    [src/unnamed/part_000] (velocity 1000 * -0.007 = -7) and stays. *)
Lemma perSecond_frame_rounds_differently :
  Double.integrate 0.35 (-0.007) 50 1 = (-5.5511151231257827e-17)%float
  /\ (1000 * -0.007)%float = (-7)%float
  /\ Double.integratePerSecond 0.35 (1000 * -0.007) 50 1 = 0%float
  /\ Double.shouldRemove 0.9 100 (Double.integrate 0.35 (-0.007) 50 1)
       200 200 = true
  /\ Double.shouldRemove 0.9 100
       (Double.integratePerSecond 0.35 (1000 * -0.007) 50 1) 200 200
     = false.
Proof. vm_compute. repeat split. Qed.

(** X14. In exact arithmetic the two [drawNextFrame] agree: on a system
    of [src/particles.js] put in units per second (velocities and gravity
    times 1000, 60 frames per second) the frame of [src/unnamed/part_000]
    returns the frame of [src/particles.js] put in units per second, so
    with the same draw calls, the same particles left at the same
    positions and the same dirty region. The system its constructor
    builds is the one of [src/particles.js] in units per second. In
    doubles the division by 1000 rounds, and the agreement is up to that
    rounding only ([perSecond_frame_rounds_differently]). *)
Theorem drawNextFrame_toPerSecond (s : t) (time : R) :
  ParticleSystemPerSecond.drawNextFrame (toPerSecond s) time
  = option_map toPerSecond (drawNextFrame s time)
  /\ (forall c : Canvas.t,
        ParticleSystemPerSecond.new c = toPerSecond (new c)).
Proof.
  split; [|intros c; symmetry; apply new_toPerSecond].
  rewrite drawNextFrame_spec. cbn [option_map].
  unfold ParticleSystemPerSecond.drawNextFrame. cbv zeta.
  change (ParticleSystemPerSecond.set_lastFrameTime (toPerSecond s) time)
    with (toPerSecond (set_lastFrameTime s time)).
  rewrite clearDirtyRegion_toPerSecond.
  change (clearDirtyRegion (set_lastFrameTime s time))
    with (frameStart s time).
  change (ParticleSystemPerSecond.frameMultiple _ _)
    with (frameMultipleAt s time).
  rewrite <- (frameStart_particles s time).
  apply (drawLoop_toPerSecond _ _ (frameStart s time) []).
  reflexivity.
Qed.

Lemma spawnBody_toPerSecond (s : t) (rnd : JS.Random) :
  ParticleSystemPerSecond.spawnBody (toPerSecond s) rnd
  = (toPerSecond (fst (spawnBody s rnd)), snd (spawnBody s rnd)).
Proof.
  rewrite spawnBody_closed. cbn [fst snd].
  unfold ParticleSystemPerSecond.spawnBody. cbv [JS.Math_random].
  cbv beta iota zeta.
  change (afterFour rnd) with (fun k => rnd (S (S (S (S k))))).
  f_equal.
  change (toPerSecond (set_particles s ?v))
    with (ParticleSystemPerSecond.set_particles (toPerSecond s)
            (map perSecond v)).
  f_equal. rewrite map_app. cbn [map].
  change (ParticleSystemPerSecond.particles (toPerSecond s))
    with (map perSecond (particles s)).
  f_equal. f_equal.
  transitivity
    {| Particle2D.x := x s;
       Particle2D.y := y s;
       Particle2D.velocityX :=
         rnd 0%nat
         * (1000 * PARTICLE_VELOCITY_X_MAX s
            - 1000 * PARTICLE_VELOCITY_X_MIN s)
         + 1000 * PARTICLE_VELOCITY_X_MIN s;
       Particle2D.velocityY :=
         rnd 1%nat
         * (1000 * PARTICLE_VELOCITY_Y_MAX s
            - 1000 * PARTICLE_VELOCITY_Y_MIN s)
         + 1000 * PARTICLE_VELOCITY_Y_MIN s;
       Particle2D.mass :=
         rnd 2%nat * (PARTICLE_MASS_MAX s - PARTICLE_MASS_MIN s)
         + PARTICLE_MASS_MIN s;
       Particle2D.alpha := rnd 3%nat;
       Particle2D.burnRate := PARTICLE_BURN_RATE s;
       Particle2D.sharpness := PARTICLE_SHARPNESS s;
       Particle2D.color :=
         {| Particle2D.RED := Particle2D.RED (SPAWN_COLOR s);
            Particle2D.GREEN := Particle2D.GREEN (SPAWN_COLOR s);
            Particle2D.BLUE := Particle2D.BLUE (SPAWN_COLOR s) |} |};
    [reflexivity|].
  unfold perSecond, spawnedParticle.
  cbv [Particle2D.set_velocityX Particle2D.set_velocityY
       Particle2D.x Particle2D.y Particle2D.velocityX Particle2D.velocityY
       Particle2D.mass Particle2D.alpha Particle2D.burnRate
       Particle2D.sharpness Particle2D.color].
  f_equal; ring.
Qed.

(** In the doubles of the code the two velocities drawn from one random
    number can differ by a rounding: for the draw 0.0625 the velocityY of
    [src/particles.js], times 1000, is -168.74999999999997, the one of
    [src/unnamed/part_000] is -168.75. *)
Lemma perSecond_spawn_rounds_differently :
  (1000 * Double.randomBetween 0.0625 0 (-0.18))%float
  = (-168.74999999999997)%float
  /\ Double.randomBetween 0.0625 0 (-180) = (-168.75)%float.
Proof. vm_compute. repeat split. Qed.

(** X15. In exact arithmetic the two [spawn] agree: on a system put in
    units per second, with the same random draws, the [spawn] of
    [src/unnamed/part_000] pushes the particles the [spawn] of
    [src/particles.js] pushes, put in units per second, and leaves the
    same stream of draws. In doubles the velocities agree up to a rounding
    only ([perSecond_spawn_rounds_differently]); the number of particles,
    their positions, masses, alphas and the draws used are the same. *)
Theorem spawn_toPerSecond (s : t) (rnd : JS.Random) (n : Z) :
  ParticleSystemPerSecond.spawn (toPerSecond s) rnd n
  = (toPerSecond (fst (spawn s rnd n)), snd (spawn s rnd n)).
Proof.
  remember (Z.to_nat n) as k eqn:Hk. revert s rnd n Hk.
  induction k as [|k IH]; intros s rnd n Hk;
    rewrite perSecond_spawn_step, (spawn_step s rnd n);
    destruct (Z_gt_dec n 0); try lia.
  - reflexivity.
  - rewrite spawnBody_toPerSecond. cbn [fst snd]. apply IH. lia.
Qed.

(** ** Where particles start and where they are drawn *)

Lemma sar_1_bounds (w : R) :
  0 <= w < IZR (2 ^ 31) -> 0 <= JS.sar w 1 <= w / 2.
Proof.
  intros [Hlo Hhi]. unfold JS.sar, JS.ToInt32, JS.trunc.
  destruct (Rle_dec 0 w) as [_|Hn]; [|contradiction].
  pose proof (Zfloor_bound w) as [Hb1 Hb2].
  assert (Hz0 : (0 <= Zfloor w)%Z) by (apply Zfloor_lub; exact Hlo).
  assert (Hz1 : (Zfloor w < 2 ^ 31)%Z) by (apply lt_IZR; lra).
  rewrite wrap32_small by lia.
  rewrite Z.shiftr_div_pow2 by lia. change (2 ^ 1)%Z with 2%Z.
  pose proof (Z.div_pos (Zfloor w) 2 Hz0 eq_refl) as Hq0.
  pose proof (Z.mul_div_le (Zfloor w) 2 eq_refl) as Hq1.
  apply IZR_le in Hq0, Hq1. rewrite mult_IZR in Hq1. lra.
Qed.

Lemma double_tilde_sign (r : R) :
  - IZR (2 ^ 31) < r < IZR (2 ^ 31) ->
  (0 <= r -> 0 <= JS.double_tilde r) /\ (r <= 0 -> JS.double_tilde r <= 0).
Proof.
  intros [Hlo Hhi]. rewrite double_tilde_ToInt32.
  unfold JS.ToInt32, JS.trunc.
  destruct (Rle_dec 0 r) as [Hpos|Hneg].
  - pose proof (Zfloor_bound r) as [Hb1 Hb2].
    assert (0 <= Zfloor r)%Z by (apply Zfloor_lub; exact Hpos).
    assert (Zfloor r < 2 ^ 31)%Z by (apply lt_IZR; lra).
    rewrite wrap32_small by lia.
    split; intros H1; [apply IZR_le; assumption|].
    assert (r = 0) as -> by lra. rewrite (ZfloorZ 0). lra.
  - pose proof (Zfloor_bound (- r)) as [Hb1 Hb2].
    assert (0 <= Zfloor (- r))%Z by (apply Zfloor_lub; lra).
    assert (Zfloor (- r) < 2 ^ 31)%Z by (apply lt_IZR; lra).
    rewrite wrap32_small by lia. rewrite opp_IZR.
    assert (0 <= IZR (Zfloor (- r))) by (apply IZR_le; assumption).
    split; intros ?; lra.
Qed.

(** X16. On a canvas of width in [0, 2^31) and of non-negative height,
    the constructor puts the spawn position inside the canvas, in its
    left half and at 0.8 of its height, and every particle [spawn] then
    pushes starts there. *)
Theorem new_system_spawns_inside (c : Canvas.t) (rnd : JS.Random) (n : Z) :
  0 <= Canvas.width c < IZR (2 ^ 31) ->
  0 <= Canvas.height c ->
  0 <= x (new c) <= Canvas.width c / 2
  /\ y (new c) = Canvas.height c * 0.8
  /\ Forall (fun q =>
               Particle2D.x q = x (new c)
               /\ Particle2D.y q = y (new c)
               /\ 0 <= Particle2D.x q <= Canvas.width c
               /\ 0 <= Particle2D.y q <= Canvas.height c)
            (particles (fst (spawn (new c) rnd n))).
Proof.
  intros HW HH.
  assert (Hx : 0 <= x (new c) <= Canvas.width c / 2)
    by (apply sar_1_bounds, HW).
  assert (Hy : y (new c) = Canvas.height c * 0.8) by reflexivity.
  split; [exact Hx|]. split; [exact Hy|].
  destruct (spawn_spec (Z.to_nat n) (new c) rnd n eq_refl)
    as (new0 & Hps & _ & Hall & _).
  rewrite Hps. change (particles (new c)) with (@nil Particle2D.t).
  cbn [app]. eapply Forall_impl; [exact Hall|].
  intros q [Hqx Hqy]. rewrite Hqx, Hqy, Hy. repeat split; lra.
Qed.

(** X17. For a position within the 32-bit range, the square [draw] fills
    (its last call) has the side [mass] and a corner with integer
    coordinates, the position truncated towards zero: less than one pixel
    from the position and never further from the origin. *)
Theorem draw_fills_truncated_square
        (p : Particle2D.t) (context : Canvas.Context) :
  - IZR (2 ^ 31) < Particle2D.x p < IZR (2 ^ 31) ->
  - IZR (2 ^ 31) < Particle2D.y p < IZR (2 ^ 31) ->
  exists X Y : Z,
    last (Particle2D.draw p context)
    = Some (Canvas.fillRect (IZR X) (IZR Y) (Particle2D.mass p)
              (Particle2D.mass p))
    /\ Rabs (IZR X - Particle2D.x p) < 1
    /\ Rabs (IZR X) <= Rabs (Particle2D.x p)
    /\ Rabs (IZR Y - Particle2D.y p) < 1
    /\ Rabs (IZR Y) <= Rabs (Particle2D.y p).
Proof.
  intros Hx Hy.
  exists (JS.ToInt32 (Particle2D.x p)), (JS.ToInt32 (Particle2D.y p)).
  rewrite <- !double_tilde_ToInt32. split.
  - unfold Particle2D.draw. cbv zeta. apply last_snoc.
  - destruct (double_tilde_trunc (Particle2D.x p) Hx) as [Px Nx].
    destruct (double_tilde_trunc (Particle2D.y p) Hy) as [Py Ny].
    destruct (double_tilde_sign (Particle2D.x p) Hx) as [Sx Tx].
    destruct (double_tilde_sign (Particle2D.y p) Hy) as [Sy Ty].
    assert (Habs : forall r d : R,
               (0 <= r -> r - 1 < d <= r) ->
               (r <= 0 -> r <= d < r + 1) ->
               (0 <= r -> 0 <= d) ->
               (r <= 0 -> d <= 0) ->
               Rabs (d - r) < 1 /\ Rabs d <= Rabs r).
    { intros r d Hp Hn Hs Ht. destruct (Rle_dec 0 r) as [H0|H0].
      - specialize (Hp H0). specialize (Hs H0).
        rewrite (Rabs_pos_eq r), (Rabs_pos_eq d) by assumption.
        split; [apply Rabs_def1; lra|lra].
      - assert (Hr : r <= 0) by lra.
        specialize (Hn Hr). specialize (Ht Hr).
        rewrite (Rabs_left r) by lra.
        destruct Ht as [Hd| ->].
        + rewrite (Rabs_left d) by lra.
          split; [apply Rabs_def1; lra|lra].
        + rewrite Rabs_R0. split; [apply Rabs_def1; lra|lra]. }
    destruct (Habs _ _ Px Nx Sx Tx) as [A1 A2].
    destruct (Habs _ _ Py Ny Sy Ty) as [A3 A4].
    repeat split; assumption.
Qed.

(** ** Falling *)



(** ** The further statements at the sample data *)

(** The frame 50 ms after the last one on the system whose one particle
    is beyond the edge: the particle is removed, nothing is left. *)
Lemma frame_without_survivors_witness :
  exists s' : t,
    drawNextFrame outsideSystem 1050 = Some s'
    /\ particles s' = []
    /\ dirtyRegion s' = resetRegion outsideSystem
    /\ clearCalls s' =
       [Canvas.clearRect
          (Canvas.width (canvas outsideSystem)
           - PARTICLE_MASS_MAX outsideSystem * 2)
          (Canvas.height (canvas outsideSystem)
           - PARTICLE_MASS_MAX outsideSystem * 2)
          (0 - Canvas.width (canvas outsideSystem)
           + PARTICLE_MASS_MAX outsideSystem * 2 * 2)
          (0 - Canvas.height (canvas outsideSystem)
           + PARTICLE_MASS_MAX outsideSystem * 2 * 2)].
Proof.
  apply frame_without_survivors; [reflexivity|].
  constructor; [|constructor].
  apply shouldRemove_true. do 4 right.
  rewrite applyForces_closed. cbn. lra.
Defined.


Lemma dirtyRegion_is_bounding_box_witness :
  exists s' : t,
    drawNextFrame sampleSystem 1050 = Some s'
    /\ 0 <= xMin (dirtyRegion s') <= Canvas.width (canvas sampleSystem)
    /\ 0 <= xMax (dirtyRegion s') <= Canvas.width (canvas sampleSystem).
Proof.
  destruct (dirtyRegion_is_bounding_box sampleSystem 1050)
    as (s' & H1 & H2 & H3 & _); [reflexivity|cbn; lra|cbn; lra|].
  exists s'. repeat split; assumption || apply H2 || apply H3.
Defined.

Lemma next_clear_holds_live_squares_witness :
  exists (s' : t) (cx cy cw ch : R),
    drawNextFrame sampleSystem 1050 = Some s'
    /\ clearCalls s' = [Canvas.clearRect cx cy cw ch].
Proof.
  destruct (next_clear_holds_live_squares sampleSystem 1050)
    as (s' & cx & cy & cw & ch & H1 & H2 & _);
    [reflexivity|cbn; lra|cbn; lra|cbn; lra|].
  exists s', cx, cy, cw, ch. split; assumption.
Defined.

Lemma alpha_velocityX_by_total_multiple_witness :
  Particle2D.alpha (applyForcesMany system200 [1; 2] sampleParticle)
  = Particle2D.alpha (applyForcesMany system200 [3] sampleParticle).
Proof.
  destruct (alpha_velocityX_by_total_multiple system200 [3] sampleParticle)
    as (_ & _ & H); [cbn; lra|cbn; lra|].
  apply H. cbn. lra.
Defined.

Lemma friction_never_speeds_up_x_witness :
  Rabs (Particle2D.velocityX (applyForcesMany system200 [1; 2] sampleParticle))
  <= Rabs (Particle2D.velocityX sampleParticle).
Proof.
  apply friction_never_speeds_up_x; [cbn; lra|].
  repeat constructor; lra.
Defined.


Lemma new_system_spawns_inside_witness :
  0 <= x (new canvas200) <= Canvas.width canvas200 / 2
  /\ y (new canvas200) = Canvas.height canvas200 * 0.8.
Proof.
  destruct (new_system_spawns_inside canvas200 (fun _ => 0.5) 2)
    as (H1 & H2 & _); [cbn; lra|cbn; lra|].
  split; assumption.
Defined.

Lemma draw_fills_truncated_square_witness :
  exists X Y : Z,
    last (Particle2D.draw sampleParticle [])
    = Some (Canvas.fillRect (IZR X) (IZR Y) (Particle2D.mass sampleParticle)
              (Particle2D.mass sampleParticle))
    /\ Rabs (IZR X - Particle2D.x sampleParticle) < 1
    /\ Rabs (IZR X) <= Rabs (Particle2D.x sampleParticle)
    /\ Rabs (IZR Y - Particle2D.y sampleParticle) < 1
    /\ Rabs (IZR Y) <= Rabs (Particle2D.y sampleParticle).
Proof. apply draw_fills_truncated_square; cbn; lra. Defined.

